(** * bezier: spline coefficients and evaluation (bezier.c, bezier.h)

    A shallow embedding of the C library.  Arrays are lists read and
    written by index, the [int] and [unsigned int] values are integers
    with their 32-bit wrap-around written out, and the [double]
    arithmetic is an interface instantiated below with IEEE-754
    binary64. *)

From Stdlib Require Import ZArith Lia Bool List Ring.
From Stdlib Require Import Floats.SpecFloat.
From stdpp Require Import base list strings.

Local Open Scope Z_scope.

(** ** Machine integers *)

Definition INT_MAX : Z := 2147483647.
Definition UINT_MAX : Z := 4294967295.

(** Conversion to [unsigned int]: reduction modulo 2^32. *)
Definition to_uint (z : Z) : Z := z mod 4294967296.

(** Conversion to [int], and [int] arithmetic: two's complement
    wrap-around (the conversion of an out-of-range value is
    implementation-defined, and is this one on gcc and clang). *)
Definition to_int (z : Z) : Z := (z + 2147483648) mod 4294967296 - 2147483648.

(** #define DEGREE 4 *)
Definition DEGREE : Z := 4.

(** ** Outcomes of a call *)

Inductive outcome (A : Type) : Type :=
| Ok (a : A)   (* the call returns *)
| Abort        (* an assert() fails *)
| Fault.       (* an access outside an allocated array, a NULL dereference *)

Arguments Ok {A} a.
Arguments Abort {A}.
Arguments Fault {A}.

Definition bind {A B} (m : outcome A) (k : A -> outcome B) : outcome B :=
  match m with
  | Ok a => k a
  | Abort => Abort
  | Fault => Fault
  end.

Notation "'do' x <- m ; k" := (bind m (fun x => k))
  (at level 10, x name, m at level 100, k at level 200).
Notation "'do' ' p <- m ; k" := (bind m (fun x => match x with p => k end))
  (at level 10, p pattern, m at level 100, k at level 200).

(** assert( b ), in a build without NDEBUG *)
Definition assert (b : bool) : outcome unit := if b then Ok tt else Abort.

(** a[i], read *)
Definition load {A} (a : list A) (i : Z) : outcome A :=
  if 0 <=? i then
    match a !! Z.to_nat i with
    | Some v => Ok v
    | None => Fault
    end
  else Fault.

(** a[i] = v *)
Definition store {A} (a : list A) (i : Z) (v : A) : outcome (list A) :=
  if 0 <=? i then
    match a !! Z.to_nat i with
    | Some _ => Ok (<[Z.to_nat i := v]> a)
    | None => Fault
    end
  else Fault.

(** The array seen through the pointer [a + off]. *)
Definition view {A} (a : list A) (off : Z) : outcome (list A) :=
  if (0 <=? off) && (off <=? Z.of_nat (length a)) then Ok (drop (Z.to_nat off) a)
  else Fault.

(** [n] rounds of a loop body, the counter starting at [i]. *)
Fixpoint for_loop {St} (n : nat) (i : Z) (body : Z -> St -> outcome St) (s : St)
  : outcome St :=
  match n with
  | O => Ok s
  | S n' => do s' <- body i s; for_loop n' (i + 1) body s'
  end.

(** for( int i = 0 ; i < hi ; i++ ) with [hi] an [int]: the counter
    stays below [hi], so it never wraps. *)
Definition for_int {St} (hi : Z) (body : Z -> St -> outcome St) (s : St)
  : outcome St :=
  for_loop (Z.to_nat hi) 0 body s.

(** for( int i = 0 ; i < hi ; i++ ) with [hi] an [unsigned int]: the
    comparison converts [i] to unsigned, so the loop makes [hi] rounds
    and the body sees the counter as an [int]. *)
Definition for_uint {St} (hi : Z) (body : Z -> St -> outcome St) (s : St)
  : outcome St :=
  for_loop (Z.to_nat hi) 0 (fun i => body (to_int i)) s.

(** ** The arithmetic of [double] *)

Class Double (F : Type) : Type := {
  of_int : Z -> F;          (* (double) n, and the literals 0.0, 1.0, -4.0, ... *)
  fadd : F -> F -> F;       (* a + b *)
  fmul : F -> F -> F;       (* a * b *)
  fdiv : F -> F -> F;       (* a / b *)
  fle : F -> F -> bool;     (* a <= b, and b >= a *)
}.

Section Bezier.
Context {F : Type} `{Double F}.

(** ** Data model (bezier.h) *)

Record curve_t : Type := {
  x : list F;
  len : Z;
}.

(** [coeff] holds the row pointers, as offsets into the one block
    [cells] that [create_spline] allocates; [curve] is the back-reference
    ([None] is NULL), the curve as it is when the spline is used; [slen]
    is the field [len].  Two splines never share a block. *)
Record spline_t : Type := {
  curve : option curve_t;
  coeff : list Z;
  cells : list F;
  slen : Z;
  num_segs : Z;
}.

(** calloc( n , sizeof(double) ) and malloc( n*sizeof(double* ) ) for an
    [int] n: a negative count converts to a size beyond the address
    space, the allocation returns NULL, which is the empty array here
    (every access to it faults).  Other allocations are taken to
    succeed. *)
Definition calloc (n : Z) : list F := replicate (Z.to_nat n) (of_int 0).
Definition malloc (n : Z) : list Z := replicate (Z.to_nat n) 0.

(** quartic Bezier basis matrix *)
Definition Mcr : list (list F) :=
  [ [ of_int 1    ; of_int (-4)  ; of_int 6     ; of_int 4 ; of_int 1 ];
    [ of_int (-4) ; of_int 12    ; of_int (-12) ; of_int 4 ; of_int 0 ];
    [ of_int 6    ; of_int (-12) ; of_int 6     ; of_int 0 ; of_int 0 ];
    [ of_int (-4) ; of_int 4     ; of_int 0     ; of_int 0 ; of_int 0 ];
    [ of_int 1    ; of_int 0     ; of_int 0     ; of_int 0 ; of_int 0 ] ].

Definition create_curve (n : Z) : curve_t :=
  {| x := calloc n; len := n |}.

Definition free_curve (cv : curve_t) : curve_t :=
  {| x := []; len := 0 |}.

Definition create_spline (cv : curve_t) : outcome spline_t :=
  let num_cpts := to_int (DEGREE + 1) in
  let num_segs := to_int (to_uint (len cv - DEGREE)) in
  let num_coeff := to_int (num_cpts * num_segs) in
  let coeff := malloc num_segs in
  let c := calloc num_coeff in
  do coeff <- for_int num_segs
                (fun i coeff => store coeff i (to_int (i * num_cpts))) coeff;
  Ok {| curve := Some cv;
        coeff := coeff;
        cells := c;
        slen := to_uint num_coeff;
        num_segs := to_uint num_segs |}.

Definition free_spline (s : spline_t) : spline_t :=
  {| curve := None; coeff := []; cells := []; slen := 0; num_segs := 0 |}.

(** The call of [free_spline]: [free( *(spline->coeff) )] reads the row
    pointer [coeff[0]] before the fields are reset; [free_spline] above
    is the state the call leaves. *)
Definition free_spline_call (s : spline_t) : outcome spline_t :=
  do _ <- load (coeff s) 0;
  Ok (free_spline s).

(** The spline [s] with its coefficient block replaced. *)
Definition with_cells (s : spline_t) (c : list F) : spline_t :=
  {| curve := curve s; coeff := coeff s; cells := c;
     slen := slen s; num_segs := num_segs s |}.

(** The spline [s] after the assignment [s->curve = gc]. *)
Definition with_curve (s : spline_t) (gc : curve_t) : spline_t :=
  {| curve := Some gc; coeff := coeff s; cells := cells s;
     slen := slen s; num_segs := num_segs s |}.

(** The asserts on non-NULL arguments are about pointers the embedding
    does not have: an argument is the array itself, and they hold. *)

Definition gmatrix (G : spline_t) (cv : curve_t) : outcome spline_t :=
  do gc <- match curve G with Some gc => Ok gc | None => Fault end;
  let num_segs := to_int (to_uint (len gc - DEGREE)) in
  do '(_, c) <-
    for_int num_segs
      (fun i '(k, c) =>
         do c <- for_int (to_int (DEGREE + 1))
                   (fun j c =>
                      do v <- load (x cv) (to_int (j + k));
                      do p <- load (coeff G) i;
                      store c (p + j) v) c;
         Ok (to_int (k + 1), c))
      (0, cells G);
  Ok (with_cells G c).

(** memset( S , 0.0 , n*sizeof(double) ): the first [n] cells get all
    bytes zero, which is +0.0 *)
Definition memset0 (S : list F) (n : Z) : outcome (list F) :=
  for_int n (fun i S => store S i (of_int 0)) S.

Definition segment (S G : list F) : outcome (list F) :=
  do S <- memset0 S (DEGREE + 1);
  for_int (to_int (DEGREE + 1))
    (fun i S =>
       for_int (to_int (DEGREE + 1))
         (fun j S =>
            do s <- load S i;
            do row <- load Mcr i;
            do m <- load row j;
            do g <- load G j;
            store S i (fadd s (fmul m g))) S) S.

Definition coefficients (spline G : spline_t) : outcome spline_t :=
  do c <-
    for_uint (num_segs spline)
      (fun i c =>
         do ps <- load (coeff spline) i;
         do pg <- load (coeff G) i;
         do S <- view c ps;
         do Gi <- view (cells G) pg;
         do S' <- segment S Gi;
         Ok (take (Z.to_nat ps) c ++ S'))
      (cells spline);
  Ok (with_cells spline c).

(** t >= 0.0 || t <= 1.0 *)
Definition t_check (t : F) : bool := fle (of_int 0) t || fle t (of_int 1).

Definition polynomial (coeff : list F) (t : F) : outcome F :=
  do _ <- assert (t_check t);
  do c0 <- load coeff 0;
  do c1 <- load coeff 1;
  do c2 <- load coeff 2;
  do c3 <- load coeff 3;
  Ok (fadd (fadd (fadd (fmul (fmul (fmul c0 t) t) t)
                       (fmul (fmul c1 t) t))
                 (fmul c2 t))
           c3).

Definition spline (cv : curve_t) (sp : spline_t) : outcome spline_t :=
  do G <- create_spline cv;
  do G <- gmatrix G cv;
  do sp <- coefficients sp G;
  do _ <- free_spline_call G;
  Ok sp.

(** [fmod] of two unsigned values is exact, so [rem] is the integer
    remainder; a zero [num_segs] makes it NaN, whose conversion to [int]
    is undefined, as is the division that follows. *)
Definition evaluate (sp : spline_t) (solution : curve_t) : outcome curve_t :=
  do _ <- assert (num_segs sp <=? len solution);
  do _ <- (if num_segs sp =? 0 then Fault else Ok tt);
  let rem := Z.rem (len solution) (num_segs sp) in
  do _ <- assert (rem =? 0);
  let res := to_int (len solution / num_segs sp) in
  do '(_, xs) <-
    for_uint (num_segs sp)
      (fun i '(k, xs) =>
         do xs <- for_int res
                    (fun j xs =>
                       do p <- load (coeff sp) i;
                       do ci <- view (cells sp) p;
                       do v <- polynomial ci (fdiv (of_int j) (of_int res));
                       store xs (to_int (j + k)) v) xs;
         Ok (to_int (k + res), xs))
      (0, x solution);
  Ok {| x := xs; len := len solution |}.

(** ** Well-formed structures *)

(** What [create_curve] establishes: [len] samples. *)
Definition wf_curve (cv : curve_t) : Prop :=
  0 <= len cv <= UINT_MAX /\ Z.of_nat (length (x cv)) = len cv.

(** What [create_spline] establishes when its sizes fit an [int]:
    [num_segs] rows of [DEGREE + 1] cells each, row [i] starting at
    cell [(DEGREE + 1) * i] of the block. *)
Definition wf_spline (s : spline_t) : Prop :=
  0 <= num_segs s /\
  (DEGREE + 1) * num_segs s <= INT_MAX /\
  slen s = (DEGREE + 1) * num_segs s /\
  coeff s = (fun i => (DEGREE + 1) * i) <$> seqZ 0 (num_segs s) /\
  Z.of_nat (length (cells s)) = (DEGREE + 1) * num_segs s.

(** ** The matrix-vector product of the specification *)

Definition dot (row G : list F) : F :=
  fold_left fadd (zip_with fmul row G) (of_int 0).

Definition matvec (M : list (list F)) (G : list F) : list F :=
  (fun row => dot row G) <$> M.

(** The basis matrix as the specification prints it. *)
Definition basis_matrix : list (list Z) :=
  [ [  1;  -4;   6; 4; 1 ];
    [ -4;  12; -12; 4; 0 ];
    [  6; -12;   6; 0; 0 ];
    [ -4;   4;   0; 0; 0 ];
    [  1;   0;   0; 0; 0 ] ].

Definition M : list (list F) := map (map of_int) basis_matrix.

(** [k * G] and [G1 + G2], elementwise. *)
Definition scale (k : F) (G : list F) : list F := fmul k <$> G.
Definition add_rows (G1 G2 : list F) : list F := zip_with fadd G1 G2.

(** Row [i] of a spline: the [DEGREE + 1] cells from its row pointer. *)
Definition row (s : spline_t) (i : Z) : list F :=
  match coeff s !! Z.to_nat i with
  | Some p => take (Z.to_nat (DEGREE + 1)) (drop (Z.to_nat p) (cells s))
  | None => []
  end.

(** The value [evaluate] stores at index [k], for [res] samples a
    segment. *)
Definition sample (sp : spline_t) (res k : Z) : outcome F :=
  polynomial (row sp (k / res)) (fdiv (of_int (k mod res)) (of_int res)).

End Bezier.

Arguments curve_t F : clear implicits.
Arguments spline_t F : clear implicits.

(** ** IEEE-754 binary64, the [double] of the program

    Every operation rounds its result to binary64, to nearest even: no
    fused multiply-add, no extended precision. *)

Definition double : Type := spec_float.

Definition b64_of_int (z : Z) : double := binary_normalize 53 1024 z 0 false.

#[export] Instance binary64 : Double double := {|
  of_int := b64_of_int;
  fadd := SFadd 53 1024;
  fmul := SFmul 53 1024;
  fdiv := SFdiv 53 1024;
  fle := SFleb;
|}.

(** [a == b] on every cell of two rows of the same length. *)
Definition row_eqb (a b : list double) : bool :=
  (length a =? length b)%nat && forallb (fun p => SFeqb (fst p) (snd p)) (zip a b).

(** Classes of values: +0.0, a positive finite value or +infinity; a
    zero; a zero or a finite value; a representable value. *)
Definition nonneg (f : double) : bool :=
  match f with
  | S754_zero false | S754_infinity false | S754_finite false _ _ => true
  | _ => false
  end.

Definition is_zero (f : double) : bool :=
  match f with
  | S754_zero _ => true
  | _ => false
  end.

Definition finite (f : double) : bool :=
  match f with
  | S754_zero _ | S754_finite _ _ _ => true
  | _ => false
  end.

Definition valid (f : double) : bool := valid_binary 53 1024 f.

(** [x] holds the integer [z], of magnitude at most [B < 2^53],
    exactly: it is [(double) z], or a zero of either sign when
    [z = 0]. *)
Definition int_below (B : Z) (x : double) (z : Z) : Prop :=
  Z.abs z <= B /\ B < 2 ^ 53 /\
  if z =? 0 then is_zero x = true else x = b64_of_int z.

(** ** Dumps (curve_to_file, spline_to_file) *)

Definition newline : string := String (Ascii.ascii_of_nat 10) EmptyString.

(** What a dump leaves: the text sent to the stream [fopen] returned
    ([None] when it returned NULL) and the text printed on the standard
    output. *)
Record dumped : Type := {
  to_file : option string;
  to_stdout : string;
}.

Section Dump.
Context {F : Type} `{Double F}.

(** printf's conversion "%g" of a double *)
Variable fmt_g : F -> string.

(** [opened]: whether [fopen] returns a stream. *)
Definition curve_to_file (opened : bool) (cv : curve_t F) : outcome dumped :=
  if opened then
    do text <- for_uint (len cv)
                 (fun i text =>
                    do v <- load (x cv) i;
                    Ok (text +:+ fmt_g v +:+ newline)) "";
    Ok {| to_file := Some text; to_stdout := "" |}
  else
    Ok {| to_file := None;
          to_stdout := "bezier: failed to write curve to file" +:+ newline |}.

Definition spline_to_file (opened : bool) (s : spline_t F) : outcome dumped :=
  if opened then
    do text <- for_uint (num_segs s)
                 (fun i text =>
                    do p <- load (coeff s) i;
                    do c0 <- load (cells s) (p + 0);
                    do c1 <- load (cells s) (p + 1);
                    do c2 <- load (cells s) (p + 2);
                    do c3 <- load (cells s) (p + 3);
                    Ok (text +:+ fmt_g c0 +:+ "," +:+ fmt_g c1 +:+ ","
                             +:+ fmt_g c2 +:+ "," +:+ fmt_g c3 +:+ newline)) "";
    Ok {| to_file := Some text; to_stdout := "" |}
  else
    Ok {| to_file := None;
          to_stdout := "bezier: failed to write spline to file" +:+ newline |}.

(** The lines of a text file, each ended by a newline. *)
Definition lines (l : list string) : string :=
  fold_right (fun line text => line +:+ newline +:+ text) "" l.

(** One line of spline.txt: the first four cells of a row. *)
Definition csv4 (r : list F) : string :=
  match r with
  | c0 :: c1 :: c2 :: c3 :: _ =>
      fmt_g c0 +:+ "," +:+ fmt_g c1 +:+ "," +:+ fmt_g c2 +:+ "," +:+ fmt_g c3
  | _ => ""
  end.

End Dump.

(** ** Sample data *)

(** The value a call returns, [d] when it does not return. *)
Definition returned {A} (d : A) (o : outcome A) : A :=
  match o with
  | Ok a => a
  | _ => d
  end.

(** The curve 0, 1, ..., n - 1. *)
Definition ramp (n : Z) : curve_t double :=
  {| x := b64_of_int <$> seqZ 0 n; len := n |}.

(** A spline after [free_spline]. *)
Definition null_spline : spline_t double :=
  {| curve := None; coeff := []; cells := []; slen := 0; num_segs := 0 |}.

(** The spline [create_spline] returns for the curve [cv]. *)
Definition fresh_spline (cv : curve_t double) : spline_t double :=
  returned null_spline (create_spline cv).

(** The geometry matrix of [cv], and the spline [spline] computes for
    the ramp of [n] samples. *)
Definition geometry (cv : curve_t double) : spline_t double :=
  returned (fresh_spline cv) (gmatrix (fresh_spline cv) cv).

Definition ramp_spline (n : Z) : spline_t double :=
  returned (fresh_spline (ramp n)) (spline (ramp n) (fresh_spline (ramp n))).

(** The curve a, a + d, ..., a + (n - 1) d. *)
Definition linear_ramp (a d n : Z) : curve_t double :=
  {| x := (fun i => b64_of_int (a + d * i)) <$> seqZ 0 n; len := n |}.

(** [s] with the fifth coefficient of its first row replaced by [v]. *)
Definition with_fifth (s : spline_t double) (v : double) : spline_t double :=
  with_cells s (<[4%nat := v]> (cells s)).

(** A stand-in for "%g" in sample runs: it tells a zero from the rest. *)
Definition fmt_sample (f : double) : string :=
  if is_zero f then "0" else "x".

(** * Facts *)

(** A closed side condition, by evaluation. *)
Ltac by_evaluation :=
  vm_compute; repeat split; solve [reflexivity | discriminate].

(** [wf_spline] of a given spline, by evaluation. *)
Ltac solve_wf_spline :=
  unfold wf_spline;
  repeat split; solve [vm_compute; discriminate | vm_compute; reflexivity].

(** ** Machine integers, outcomes, loops *)

Lemma to_int_small (z : Z) : -2147483648 <= z <= INT_MAX -> to_int z = z.
Proof.
  unfold to_int, INT_MAX. intros Hz.
  rewrite Z.mod_small by lia. lia.
Qed.

Lemma to_uint_small (z : Z) : 0 <= z <= UINT_MAX -> to_uint z = z.
Proof. unfold to_uint, UINT_MAX. intros Hz. apply Z.mod_small. lia. Qed.

Lemma to_uint_to_int (z : Z) : to_uint (to_int z) = to_uint z.
Proof.
  unfold to_uint, to_int.
  rewrite Zminus_mod_idemp_l. f_equal. lia.
Qed.

Lemma to_int_to_uint (z : Z) : to_int (to_uint z) = to_int z.
Proof.
  unfold to_uint, to_int. now rewrite Zplus_mod_idemp_l.
Qed.

Lemma to_uint_idem (z : Z) : to_uint (to_uint z) = to_uint z.
Proof. unfold to_uint. apply Z.mod_mod. lia. Qed.

Lemma load_Ok {A} (a : list A) (i : Z) (v : A) :
  0 <= i -> a !! Z.to_nat i = Some v -> load a i = Ok v.
Proof.
  intros Hi Hv. unfold load.
  destruct (Z.leb_spec 0 i); [| lia]. now rewrite Hv.
Qed.

(** A read returns or faults. *)
Lemma load_cases {A} (a : list A) (i : Z) :
  (exists v, load a i = Ok v) \/ load a i = Fault.
Proof.
  unfold load. destruct (0 <=? i); [| now right].
  destruct (a !! Z.to_nat i); [left; eauto | now right].
Qed.

Lemma store_Ok {A} (a : list A) (i : Z) (v : A) :
  0 <= i < Z.of_nat (length a) -> store a i v = Ok (<[Z.to_nat i := v]> a).
Proof.
  intros Hi. unfold store.
  destruct (Z.leb_spec 0 i); [| lia].
  destruct (lookup_lt_is_Some_2 a (Z.to_nat i)) as [w Hw]; [lia |].
  now rewrite Hw.
Qed.

Lemma view_Ok {A} (a : list A) (off : Z) :
  0 <= off <= Z.of_nat (length a) -> view a off = Ok (drop (Z.to_nat off) a).
Proof.
  intros Ho. unfold view.
  destruct (Z.leb_spec 0 off); [| lia].
  destruct (Z.leb_spec off (Z.of_nat (length a))); [reflexivity | lia].
Qed.

(** The invariant rule of [for_loop]: the loop returns, and an
    invariant that every round keeps holds at the end. *)
Lemma for_loop_inv {St} (P : Z -> St -> Prop) (body : Z -> St -> outcome St)
    (n : nat) (i : Z) (s : St) :
  P i s ->
  (forall j t, i <= j < i + Z.of_nat n -> P j t ->
               exists t', body j t = Ok t' /\ P (j + 1) t') ->
  exists s', for_loop n i body s = Ok s' /\ P (i + Z.of_nat n) s'.
Proof.
  revert i s. induction n as [| n IH]; intros i s Hs Hbody.
  - exists s. split; [reflexivity |]. now replace (i + Z.of_nat 0) with i by lia.
  - destruct (Hbody i s) as (t & Ht & HP); [lia | assumption |].
    destruct (IH (i + 1) t) as (s' & Hs' & HP').
    + assumption.
    + intros j u Hj. apply Hbody. lia.
    + exists s'. split.
      * simpl. rewrite Ht. exact Hs'.
      * now replace (i + Z.of_nat (S n)) with (i + 1 + Z.of_nat n) by lia.
Qed.

Lemma for_int_inv {St} (P : Z -> St -> Prop) (body : Z -> St -> outcome St)
    (hi : Z) (s : St) :
  0 <= hi ->
  P 0 s ->
  (forall j t, 0 <= j < hi -> P j t ->
               exists t', body j t = Ok t' /\ P (j + 1) t') ->
  exists s', for_int hi body s = Ok s' /\ P hi s'.
Proof.
  intros Hhi Hs Hbody.
  destruct (for_loop_inv P body (Z.to_nat hi) 0 s Hs) as (s' & Hs' & HP).
  - intros j t Hj. apply Hbody. lia.
  - exists s'. split; [exact Hs' |].
    now replace hi with (0 + Z.of_nat (Z.to_nat hi)) by lia.
Qed.

Lemma for_uint_inv {St} (P : Z -> St -> Prop) (body : Z -> St -> outcome St)
    (hi : Z) (s : St) :
  0 <= hi <= INT_MAX + 1 ->
  P 0 s ->
  (forall j t, 0 <= j < hi -> P j t ->
               exists t', body j t = Ok t' /\ P (j + 1) t') ->
  exists s', for_uint hi body s = Ok s' /\ P hi s'.
Proof.
  intros Hhi Hs Hbody. unfold for_uint.
  destruct (for_loop_inv P (fun i => body (to_int i)) (Z.to_nat hi) 0 s Hs)
    as (s' & Hs' & HP).
  - intros j t Hj HPj. rewrite to_int_small by (unfold INT_MAX in *; lia).
    apply Hbody; [lia | assumption].
  - exists s'. split; [exact Hs' |].
    now replace hi with (0 + Z.of_nat (Z.to_nat hi)) by lia.
Qed.

Section Facts.
Context {F : Type} `{Double F}.

(** ** create_spline *)

(** The row-pointer loop of [create_spline], in closed form. *)
Lemma fill_rows (f : Z -> Z) (m : nat) (pre : list Z) :
  for_loop m (Z.of_nat (length pre)) (fun i a => store a i (f i))
           (pre ++ replicate m 0)
  = Ok (pre ++ (f <$> seqZ (Z.of_nat (length pre)) (Z.of_nat m))).
Proof.
  revert pre. induction m as [| m IH]; intros pre.
  - simpl. reflexivity.
  - cbn [for_loop]. rewrite store_Ok.
    2:{ rewrite length_app, length_replicate. lia. }
    cbn [bind]. rewrite Nat2Z.id.
    replace (<[length pre := f (Z.of_nat (length pre))]> (pre ++ replicate (S m) 0))
      with ((pre ++ [f (Z.of_nat (length pre))]) ++ replicate m 0).
    2:{ rewrite insert_app_r_alt by lia. rewrite Nat.sub_diag. simpl.
        now rewrite <- app_assoc. }
    replace (Z.of_nat (length pre) + 1)
      with (Z.of_nat (length (pre ++ [f (Z.of_nat (length pre))])))
      by (rewrite length_app; simpl; lia).
    rewrite IH. f_equal. rewrite <- app_assoc. f_equal.
    rewrite (seqZ_cons (Z.of_nat (length pre)) (Z.of_nat (S m))) by lia.
    rewrite fmap_cons. simpl. do 2 f_equal.
    rewrite length_app. simpl. f_equal; lia.
Qed.

Lemma create_spline_eq (cv : curve_t F) :
  create_spline cv =
  Ok {| curve := Some cv;
        coeff := (fun i => to_int (i * 5))
                   <$> seqZ 0 (to_int (to_uint (len cv - DEGREE)));
        cells := calloc (to_int (5 * to_int (to_uint (len cv - DEGREE))));
        slen := to_uint (to_int (5 * to_int (to_uint (len cv - DEGREE))));
        num_segs := to_uint (to_int (to_uint (len cv - DEGREE))) |}.
Proof.
  unfold create_spline, for_int, malloc.
  change (to_int (DEGREE + 1)) with 5.
  set (n := to_int (to_uint (len cv - DEGREE))).
  pose proof (fill_rows (fun i => to_int (i * 5)) (Z.to_nat n) []) as Hfill.
  cbn [length app] in Hfill. change (Z.of_nat 0) with 0 in Hfill.
  rewrite Hfill. cbn [bind].
  destruct (Z.le_gt_cases 0 n) as [Hn | Hn].
  - now rewrite Z2Nat.id by lia.
  - replace (Z.of_nat (Z.to_nat n)) with 0 by lia.
    now rewrite !seqZ_nil by lia.
Qed.

Lemma wf_coeff_lookup (s : spline_t F) (i : Z) :
  wf_spline s -> 0 <= i < num_segs s ->
  coeff s !! Z.to_nat i = Some ((DEGREE + 1) * i).
Proof.
  intros (_ & _ & _ & Hc & _) Hi. rewrite Hc, list_lookup_fmap.
  rewrite lookup_seqZ_lt by lia. simpl. rewrite Z2Nat.id by lia. reflexivity.
Qed.

Lemma wf_row_length (s : spline_t F) (i : Z) :
  wf_spline s -> 0 <= i < num_segs s ->
  length (row s i) = Z.to_nat (DEGREE + 1).
Proof.
  intros Hwf Hi. unfold row. rewrite (wf_coeff_lookup s i Hwf Hi).
  destruct Hwf as (_ & _ & _ & _ & Hlen).
  rewrite length_take, length_drop. unfold DEGREE in *. lia.
Qed.

(** [create_spline] on a curve whose sizes fit an [int] returns a
    well-formed spline of zero coefficients. *)
Lemma create_spline_wf (cv : curve_t F) :
  DEGREE <= len cv -> (DEGREE + 1) * (len cv - DEGREE) <= INT_MAX ->
  exists s, create_spline cv = Ok s /\ wf_spline s /\
            curve s = Some cv /\ num_segs s = len cv - DEGREE /\
            cells s = calloc ((DEGREE + 1) * (len cv - DEGREE)).
Proof.
  unfold DEGREE, INT_MAX. intros Hlo Hhi.
  rewrite create_spline_eq. eexists. split; [reflexivity |].
  unfold DEGREE.
  assert (Hn : to_int (to_uint (len cv - 4)) = len cv - 4).
  { rewrite to_uint_small by (unfold UINT_MAX; lia).
    apply to_int_small. unfold INT_MAX. lia. }
  rewrite !Hn.
  assert (Hc : to_int (5 * (len cv - 4)) = 5 * (len cv - 4)).
  { apply to_int_small. unfold INT_MAX. lia. }
  rewrite !Hc.
  rewrite !to_uint_small by (unfold UINT_MAX; lia).
  unfold wf_spline, DEGREE, INT_MAX. cbn [num_segs slen coeff cells curve].
  repeat split; try lia.
  - apply list_fmap_ext. intros k z Hk. apply lookup_seqZ in Hk.
    rewrite to_int_small by (unfold INT_MAX; lia). lia.
  - unfold calloc. rewrite length_replicate. lia.
Qed.

(** ** gmatrix *)

Lemma lookup_store {A} (a : list A) (i : Z) (v : A) (k : nat) :
  0 <= i < Z.of_nat (length a) ->
  <[Z.to_nat i := v]> a !! k = if decide (Z.to_nat i = k) then Some v else a !! k.
Proof.
  intros Hi. destruct (decide (Z.to_nat i = k)) as [<- | Hne].
  - apply list_lookup_insert_eq. lia.
  - now apply list_lookup_insert_ne.
Qed.

(** One row of [gmatrix]: the inner loop copies [DEGREE + 1] samples
    and leaves the other cells as they are. *)
Lemma gmatrix_row (G : spline_t F) (cv : curve_t F) (i : Z) (c : list F) :
  wf_spline G -> 0 <= i < num_segs G ->
  i + DEGREE < Z.of_nat (length (x cv)) ->
  length c = length (cells G) ->
  exists c',
    for_int (to_int (DEGREE + 1))
      (fun j c =>
         do v <- load (x cv) (to_int (j + i));
         do p <- load (coeff G) i;
         store c (p + j) v) c = Ok c' /\
    length c' = length c /\
    (forall j, 0 <= j <= DEGREE ->
               c' !! Z.to_nat ((DEGREE + 1) * i + j) = x cv !! Z.to_nat (i + j)) /\
    (forall k, (k < Z.to_nat ((DEGREE + 1) * i)
                \/ Z.to_nat ((DEGREE + 1) * i + DEGREE) < k)%nat ->
               c' !! k = c !! k).
Proof.
  intros Hwf Hi Hx Hc.
  pose proof (wf_coeff_lookup G i Hwf Hi) as Hp.
  destruct Hwf as (Hn0 & Hmax & _ & _ & Hcells).
  unfold DEGREE, INT_MAX in *. change (to_int (4 + 1)) with 5.
  destruct (for_int_inv
    (fun j c' =>
       length c' = length c /\
       (forall j', 0 <= j' < j ->
                   c' !! Z.to_nat (5 * i + j') = x cv !! Z.to_nat (i + j')) /\
       (forall k, (k < Z.to_nat (5 * i) \/ Z.to_nat (5 * i + 4) < k)%nat ->
                  c' !! k = c !! k))
    (fun j c =>
         do v <- load (x cv) (to_int (j + i));
         do p <- load (coeff G) i;
         store c (p + j) v) 5 c) as (c' & Hrun & Hlen & Hrow & Hframe).
  - lia.
  - split; [reflexivity |]. split; [intros; lia | reflexivity].
  - intros j t Hj (Hlen & Hrow & Hframe).
    rewrite to_int_small by (unfold INT_MAX; lia).
    destruct (lookup_lt_is_Some_2 (x cv) (Z.to_nat (j + i))) as [v Hv]; [lia |].
    rewrite (load_Ok _ _ v) by (lia || assumption). cbn [bind].
    rewrite (load_Ok _ _ (5 * i)) by (lia || assumption). cbn [bind].
    rewrite store_Ok by lia.
    eexists. split; [reflexivity |].
    split; [rewrite length_insert; exact Hlen |]. split.
    + intros j' Hj'. rewrite lookup_store by lia.
      destruct (decide (Z.to_nat (5 * i + j) = Z.to_nat (5 * i + j'))) as [E | E].
      * replace j' with j by lia. rewrite <- Hv. f_equal. lia.
      * apply Hrow. lia.
    + intros k Hk. rewrite lookup_store by lia.
      destruct (decide (Z.to_nat (5 * i + j) = k)); [lia | now apply Hframe].
  - exists c'. split; [exact Hrun |]. split; [exact Hlen |]. split.
    + intros j Hj. apply Hrow. lia.
    + exact Hframe.
Qed.

(** [gmatrix] on a well-formed [G] whose back-referenced curve has [n]
    samples: it fills [n - DEGREE] rows, row [i] with the samples
    [i .. i + DEGREE] of its curve argument. *)
Lemma gmatrix_spec (G : spline_t F) (gc cv : curve_t F) :
  wf_spline G -> curve G = Some gc -> num_segs G = len gc - DEGREE ->
  len gc <= Z.of_nat (length (x cv)) ->
  exists c,
    gmatrix G cv = Ok (with_cells G c) /\
    length c = length (cells G) /\
    (forall i j, 0 <= i < len gc - DEGREE -> 0 <= j <= DEGREE ->
                 c !! Z.to_nat ((DEGREE + 1) * i + j) = x cv !! Z.to_nat (i + j)).
Proof.
  intros Hwf Hcurve Hsegs Hx.
  pose proof Hwf as (Hn0 & Hmax & _ & _ & Hcells).
  unfold gmatrix. rewrite Hcurve. cbn [bind].
  assert (Hn : to_int (to_uint (len gc - DEGREE)) = num_segs G).
  { rewrite <- Hsegs. unfold DEGREE, INT_MAX in *.
    rewrite to_uint_small by (unfold UINT_MAX; lia).
    apply to_int_small. unfold INT_MAX. lia. }
  rewrite Hn.
  destruct (for_int_inv
    (fun i (st : Z * list F) =>
       fst st = i /\ length (snd st) = length (cells G) /\
       (forall i' j, 0 <= i' < i -> 0 <= j <= DEGREE ->
          snd st !! Z.to_nat ((DEGREE + 1) * i' + j) = x cv !! Z.to_nat (i' + j)))
    (fun i '(k, c) =>
         do c <- for_int (to_int (DEGREE + 1))
                   (fun j c =>
                      do v <- load (x cv) (to_int (j + k));
                      do p <- load (coeff G) i;
                      store c (p + j) v) c;
         Ok (to_int (k + 1), c))
    (num_segs G) (0, cells G)) as ([k c] & Hrun & _ & Hlen & Hrows).
  - exact Hn0.
  - cbn [fst snd]. split; [reflexivity |]. split; [reflexivity |]. intros; lia.
  - intros i [k c] Hi (Hk & Hlen & Hrows). cbn [fst snd] in *. subst k.
    destruct (gmatrix_row G cv i c Hwf Hi) as (c' & Hrun & Hlen' & Hrow & Hframe).
    + unfold DEGREE in *. lia.
    + exact Hlen.
    + rewrite Hrun. cbn [bind]. eexists. split; [reflexivity |].
      cbn [fst snd]. split.
      { apply to_int_small. unfold DEGREE, INT_MAX in *. lia. }
      split; [congruence |].
      intros i' j Hi' Hj.
      destruct (Z.eq_dec i' i) as [-> | Hne]; [now apply Hrow |].
      rewrite Hframe by (unfold DEGREE in *; lia).
      apply Hrows; lia.
  - rewrite Hrun. cbn [bind]. exists c. cbn [snd] in *.
    split; [reflexivity |]. split; [exact Hlen |].
    intros i j Hi Hj. apply Hrows; lia.
Qed.

Lemma take_drop_ext {A} (l1 l2 : list A) (a b n : nat) :
  (forall j, (j < n)%nat -> l1 !! (a + j)%nat = l2 !! (b + j)%nat) ->
  take n (drop a l1) = take n (drop b l2).
Proof.
  intros Hj. apply list_eq. intros j.
  destruct (decide (j < n)%nat) as [Hlt | Hge].
  - rewrite !lookup_take_lt, !lookup_drop by assumption. now apply Hj.
  - rewrite !lookup_take_ge by lia. reflexivity.
Qed.

(** The rows of [gmatrix]'s result, as lists. *)
Lemma gmatrix_rows (G : spline_t F) (gc cv : curve_t F) :
  wf_spline G -> curve G = Some gc -> num_segs G = len gc - DEGREE ->
  len gc <= Z.of_nat (length (x cv)) ->
  exists G',
    gmatrix G cv = Ok G' /\
    curve G' = curve G /\ coeff G' = coeff G /\
    slen G' = slen G /\ num_segs G' = num_segs G /\
    length (cells G') = length (cells G) /\
    (forall i, 0 <= i < len gc - DEGREE ->
       row G' i = take (Z.to_nat (DEGREE + 1)) (drop (Z.to_nat i) (x cv))).
Proof.
  intros Hwf Hcurve Hsegs Hx.
  destruct (gmatrix_spec G gc cv Hwf Hcurve Hsegs Hx) as (c & Hrun & Hlen & Hc).
  exists (with_cells G c). split; [exact Hrun |].
  cbn [with_cells curve coeff slen num_segs cells].
  repeat (split; [reflexivity || exact Hlen |]).
  intros i Hi. unfold row, with_cells. cbn [coeff cells].
  rewrite (wf_coeff_lookup G i Hwf) by lia.
  apply take_drop_ext. intros j Hj.
  specialize (Hc i (Z.of_nat j) Hi). unfold DEGREE in *.
  replace (Z.to_nat ((4 + 1) * i) + j)%nat
    with (Z.to_nat ((4 + 1) * i + Z.of_nat j)) by lia.
  replace (Z.to_nat i + j)%nat with (Z.to_nat (i + Z.of_nat j)) by lia.
  apply Hc. lia.
Qed.

(** The row count of [gmatrix] is the back-referenced length less
    [DEGREE], whatever [G.num_segs] is: the rows below it are filled,
    the cells of the rows from it on are left as they are. *)
Lemma gmatrix_fill (G : spline_t F) (gc cv : curve_t F) :
  wf_spline G -> curve G = Some gc ->
  0 <= len gc -> len gc - DEGREE <= num_segs G ->
  len gc <= Z.of_nat (length (x cv)) ->
  exists c,
    gmatrix G cv = Ok (with_cells G c) /\
    length c = length (cells G) /\
    (forall i j, 0 <= i < len gc - DEGREE -> 0 <= j <= DEGREE ->
                 c !! Z.to_nat ((DEGREE + 1) * i + j) = x cv !! Z.to_nat (i + j)) /\
    (forall k, (DEGREE + 1) * (len gc - DEGREE) <= Z.of_nat k ->
               c !! k = cells G !! k).
Proof.
  intros Hwf Hcurve Hlen0 Hsegs Hx.
  pose proof Hwf as (Hn0 & Hmax & _ & _ & Hcells).
  unfold gmatrix. rewrite Hcurve. cbn [bind].
  assert (Hn : to_int (to_uint (len gc - DEGREE)) = len gc - DEGREE).
  { rewrite to_int_to_uint. unfold DEGREE, INT_MAX in *.
    apply to_int_small. unfold INT_MAX. lia. }
  rewrite Hn.
  destruct (Z.le_gt_cases (len gc - DEGREE) 0) as [Hnone | Hsome].
  { unfold for_int. replace (Z.to_nat (len gc - DEGREE)) with 0%nat by lia.
    cbn [for_loop bind]. exists (cells G).
    split; [reflexivity |]. split; [reflexivity |].
    split; [intros; lia | reflexivity]. }
  destruct (for_int_inv
    (fun i (st : Z * list F) =>
       fst st = i /\ length (snd st) = length (cells G) /\
       (forall i' j, 0 <= i' < i -> 0 <= j <= DEGREE ->
          snd st !! Z.to_nat ((DEGREE + 1) * i' + j) = x cv !! Z.to_nat (i' + j)) /\
       (forall k, (DEGREE + 1) * i <= Z.of_nat k -> snd st !! k = cells G !! k))
    (fun i '(k, c) =>
         do c <- for_int (to_int (DEGREE + 1))
                   (fun j c =>
                      do v <- load (x cv) (to_int (j + k));
                      do p <- load (coeff G) i;
                      store c (p + j) v) c;
         Ok (to_int (k + 1), c))
    (len gc - DEGREE) (0, cells G)) as ([k c] & Hrun & _ & Hlen & Hrows & Hrest).
  - lia.
  - cbn [fst snd]. split; [reflexivity |]. split; [reflexivity |].
    split; [intros; lia | reflexivity].
  - intros i [k c] Hi (Hk & Hlen & Hrows & Hrest). cbn [fst snd] in *. subst k.
    destruct (gmatrix_row G cv i c Hwf) as (c' & Hrun & Hlen' & Hrow & Hframe).
    + lia.
    + unfold DEGREE in *. lia.
    + exact Hlen.
    + rewrite Hrun. cbn [bind]. eexists. split; [reflexivity |].
      cbn [fst snd]. split.
      { apply to_int_small. unfold DEGREE, INT_MAX in *. lia. }
      split; [congruence |]. split.
      * intros i' j Hi' Hj.
        destruct (Z.eq_dec i' i) as [-> | Hne]; [now apply Hrow |].
        rewrite Hframe by (unfold DEGREE in *; lia).
        apply Hrows; lia.
      * intros k Hk. rewrite Hframe by (unfold DEGREE in *; lia).
        apply Hrest. unfold DEGREE in *. lia.
  - rewrite Hrun. cbn [bind]. exists c. cbn [snd] in *.
    split; [reflexivity |]. split; [exact Hlen |]. split.
    + intros i j Hi Hj. apply Hrows; lia.
    + exact Hrest.
Qed.

(** A spline without a coefficient block (the allocation failed) whose
    back-referenced curve asks for a row: the first store faults, if the
    reads before it do not. *)
Lemma gmatrix_no_block (G : spline_t F) (gc cv : curve_t F) :
  curve G = Some gc -> (1 <= to_int (to_uint (len gc - DEGREE))) ->
  cells G = [] -> gmatrix G cv = Fault.
Proof.
  intros Hcurve Hn Hcells. unfold gmatrix. rewrite Hcurve, Hcells. cbn [bind].
  unfold for_int at 1.
  destruct (Z.to_nat (to_int (to_uint (len gc - DEGREE)))) as [| n] eqn:E; [lia |].
  cbn [for_loop]. change (to_int (DEGREE + 1)) with 5.
  unfold for_int. change (Z.to_nat 5) with 5%nat. cbn [for_loop].
  destruct (load_cases (x cv) (to_int (0 + 0))) as [[v ->] | ->]; [| reflexivity].
  cbn [bind]. destruct (load_cases (coeff G) 0) as [[p ->] | ->]; [| reflexivity].
  cbn [bind]. unfold store. rewrite lookup_nil.
  now destruct (0 <=? p + 0).
Qed.

(** ** segment, coefficients *)

(** [segment] through two pointers with at least [DEGREE + 1] cells
    behind each: the cells of [S] after the first [DEGREE + 1] are kept. *)
Lemma segment_view (S G : list F) :
  (5 <= length S)%nat -> (5 <= length G)%nat ->
  segment S G = Ok (matvec Mcr (take 5 G) ++ drop 5 S).
Proof.
  intros HS HG.
  destruct S as [| s0 [| s1 [| s2 [| s3 [| s4 S']]]]]; simpl in HS; try lia.
  destruct G as [| g0 [| g1 [| g2 [| g3 [| g4 G']]]]]; simpl in HG; try lia.
  reflexivity.
Qed.

Lemma segment_five (S G : list F) :
  length S = 5%nat -> length G = 5%nat -> segment S G = Ok (matvec Mcr G).
Proof.
  intros HS HG. rewrite segment_view by lia.
  rewrite firstn_all2, skipn_all2 by lia. now rewrite app_nil_r.
Qed.

Lemma matvec_length (M : list (list F)) (G : list F) :
  length (matvec M G) = length M.
Proof. unfold matvec. apply length_fmap. Qed.

Lemma wf_row (s : spline_t F) (i : Z) :
  wf_spline s -> 0 <= i < num_segs s ->
  row s i = take 5 (drop (Z.to_nat (5 * i)) (cells s)).
Proof.
  intros Hwf Hi. unfold row. now rewrite (wf_coeff_lookup s i Hwf Hi).
Qed.

(** [coefficients] writes row [i] of [sp] from row [i] of [G], for every
    [i] below [num_segs sp]. *)
Lemma coefficients_spec (sp G : spline_t F) :
  wf_spline sp -> wf_spline G -> num_segs sp <= num_segs G ->
  exists c,
    coefficients sp G = Ok (with_cells sp c) /\
    length c = length (cells sp) /\
    (forall i, 0 <= i < num_segs sp ->
       take 5 (drop (Z.to_nat (5 * i)) c) = matvec Mcr (row G i)).
Proof.
  intros Hwf HwfG Hle.
  pose proof Hwf as (Hn0 & Hmax & _ & _ & Hcells).
  pose proof HwfG as (_ & _ & _ & _ & HcellsG).
  unfold DEGREE, INT_MAX in *. unfold coefficients.
  destruct (for_uint_inv
    (fun i c =>
       length c = length (cells sp) /\
       (forall i', 0 <= i' < i ->
          take 5 (drop (Z.to_nat (5 * i')) c) = matvec Mcr (row G i')))
    (fun i c =>
         do ps <- load (coeff sp) i;
         do pg <- load (coeff G) i;
         do S <- view c ps;
         do Gi <- view (cells G) pg;
         do S' <- segment S Gi;
         Ok (take (Z.to_nat ps) c ++ S'))
    (num_segs sp) (cells sp)) as (c & Hrun & Hlen & Hrows).
  - unfold INT_MAX. lia.
  - split; [reflexivity | intros; lia].
  - intros i c Hi (Hlen & Hrows).
    rewrite (load_Ok _ _ (5 * i)) by (lia || now apply wf_coeff_lookup).
    cbn [bind].
    rewrite (load_Ok _ _ (5 * i))
      by first [lia | apply wf_coeff_lookup; [assumption | lia]].
    cbn [bind].
    rewrite !view_Ok by lia. cbn [bind].
    rewrite segment_view by (rewrite length_drop; lia). cbn [bind].
    eexists. split; [reflexivity |].
    assert (Hm : forall g, length (matvec Mcr g) = 5%nat)
      by (intros g; rewrite matvec_length; reflexivity).
    split.
    + rewrite !length_app, Hm, length_take, !length_drop. lia.
    + intros i' Hi'. destruct (Z.eq_dec i' i) as [-> | Hne].
      * rewrite drop_app_length' by (rewrite length_take; lia).
        rewrite take_app_length' by (now rewrite Hm).
        rewrite wf_row by (assumption || lia). reflexivity.
      * rewrite <- Hrows by lia. apply take_drop_ext. intros j Hj.
        rewrite lookup_app_l by (rewrite length_take; lia).
        apply lookup_take_lt. lia.
  - rewrite Hrun. cbn [bind]. exists c. split; [reflexivity |].
    split; [exact Hlen | exact Hrows].
Qed.

(** [free_spline] on a spline that has a row: the read of [coeff[0]]
    is in bounds. *)
Lemma free_spline_call_Ok (s : spline_t F) :
  wf_spline s -> 1 <= num_segs s -> free_spline_call s = Ok (free_spline s).
Proof.
  intros Hwf Hn. unfold free_spline_call.
  rewrite (load_Ok _ _ ((DEGREE + 1) * 0)); [reflexivity | lia |].
  apply (wf_coeff_lookup s 0 Hwf). lia.
Qed.

(** [spline]: row [i] of the result is the basis matrix applied to the
    samples [i .. i + DEGREE] of the curve. *)
Lemma spline_rows (cv : curve_t F) (sp : spline_t F) :
  wf_curve cv -> DEGREE + 1 <= len cv ->
  (DEGREE + 1) * (len cv - DEGREE) <= INT_MAX ->
  wf_spline sp -> num_segs sp <= len cv - DEGREE ->
  exists sp',
    spline cv sp = Ok sp' /\
    num_segs sp' = num_segs sp /\
    (forall i, 0 <= i < num_segs sp ->
       row sp' i = matvec Mcr (take 5 (drop (Z.to_nat i) (x cv)))).
Proof.
  intros [_ Hx] Hlo Hhi Hwf Hle. unfold spline.
  assert (Hlo' : DEGREE <= len cv) by lia.
  destruct (create_spline_wf cv Hlo' Hhi) as (G & -> & HwfG & Hcurve & Hn & _).
  cbn [bind].
  destruct (gmatrix_rows G cv cv HwfG Hcurve Hn) as
    (G' & -> & _ & Hco & Hsl & Hns & Hce & Hrows); [lia |].
  cbn [bind].
  assert (HwfG' : wf_spline G').
  { destruct HwfG as (H1 & H2 & H3 & H4 & H5). unfold wf_spline.
    rewrite Hco, Hsl, Hns, Hce. auto. }
  destruct (coefficients_spec sp G' Hwf HwfG') as (c & -> & _ & Hc); [lia |].
  cbn [bind]. rewrite (free_spline_call_Ok G' HwfG') by lia. cbn [bind].
  eexists. split; [reflexivity |]. split; [reflexivity |].
  intros i Hi. rewrite <- Hrows by lia. rewrite <- Hc by exact Hi.
  unfold row, with_cells. cbn [coeff cells].
  now rewrite (wf_coeff_lookup sp i Hwf Hi).
Qed.

(** ** polynomial, evaluate *)

Lemma polynomial_eq (c0 c1 c2 c3 : F) (rest : list F) (t : F) :
  polynomial (c0 :: c1 :: c2 :: c3 :: rest) t =
  if t_check t
  then Ok (fadd (fadd (fadd (fmul (fmul (fmul c0 t) t) t)
                            (fmul (fmul c1 t) t))
                      (fmul c2 t))
                c3)
  else Abort.
Proof. unfold polynomial. now destruct (t_check t). Qed.

(** [polynomial] reads four cells: it returns the same through a
    pointer to a longer array. *)
Lemma polynomial_take (n : nat) (c : list F) (t : F) :
  (4 <= n)%nat -> polynomial (take n c) t = polynomial c t.
Proof.
  intros Hn. unfold polynomial, load. cbn [Z.leb Z.compare].
  now rewrite !lookup_take_lt by (simpl; lia).
Qed.

Lemma polynomial_Ok (c : list F) (t : F) :
  t_check t = true -> (4 <= length c)%nat -> exists v, polynomial c t = Ok v.
Proof.
  intros Ht Hc.
  destruct c as [| c0 [| c1 [| c2 [| c3 rest]]]]; simpl in Hc; try lia.
  rewrite polynomial_eq, Ht. eauto.
Qed.

Lemma evaluate_spec (sp : spline_t F) (sol : curve_t F) (res : Z) :
  wf_spline sp -> 1 <= num_segs sp -> 1 <= res ->
  len sol = res * num_segs sp ->
  len sol <= INT_MAX -> len sol <= Z.of_nat (length (x sol)) ->
  (forall j, 0 <= j < res -> t_check (fdiv (of_int j) (of_int res)) = true) ->
  exists xs,
    evaluate sp sol = Ok {| x := xs; len := len sol |} /\
    length xs = length (x sol) /\
    (forall k, 0 <= k < len sol ->
       exists v, sample sp res k = Ok v /\ xs !! Z.to_nat k = Some v) /\
    (forall n, (Z.to_nat (len sol) <= n)%nat -> xs !! n = x sol !! n).
Proof.
  intros Hwf Hsegs Hres Hlen Hmax Hbuf Hcheck.
  pose proof Hwf as (_ & Hmax5 & _ & _ & Hcells).
  unfold DEGREE, INT_MAX in *. unfold evaluate.
  assert (Hle : num_segs sp <= len sol) by nia.
  destruct (Z.leb_spec (num_segs sp) (len sol)) as [_ | E1]; [| lia].
  cbn [assert bind].
  destruct (Z.eqb_spec (num_segs sp) 0) as [E0 | E0]; [lia |]. cbn [bind].
  rewrite Hlen, Z.rem_mul by lia. cbn [Z.eqb assert bind].
  rewrite Z.div_mul by lia.
  rewrite (to_int_small res) by (unfold INT_MAX; nia).
  destruct (for_uint_inv
    (fun i (st : Z * list F) =>
       fst st = i * res /\ length (snd st) = length (x sol) /\
       (forall k, 0 <= k < i * res ->
          exists v, sample sp res k = Ok v /\ snd st !! Z.to_nat k = Some v) /\
       (forall n, (Z.to_nat (i * res) <= n)%nat -> snd st !! n = x sol !! n))
    (fun i '(k, xs) =>
         do xs <- for_int res
                    (fun j xs =>
                       do p <- load (coeff sp) i;
                       do ci <- view (cells sp) p;
                       do v <- polynomial ci (fdiv (of_int j) (of_int res));
                       store xs (to_int (j + k)) v) xs;
         Ok (to_int (k + res), xs))
    (num_segs sp) (0, x sol)) as ([k xs] & Hrun & _ & Hxs & Hdone & Hframe).
  - unfold INT_MAX. lia.
  - cbn [fst snd]. split; [lia |]. split; [reflexivity |].
    split; [intros; lia | reflexivity].
  - intros i [k xs] Hi (Hk & Hxs & Hdone & Hframe). cbn [fst snd] in *. subst k.
    assert (Hir : i * res + res <= res * num_segs sp) by nia.
    assert (Hi0 : 0 <= i * res) by nia.
    destruct (for_int_inv
      (fun j xs' =>
         length xs' = length (x sol) /\
         (forall k, 0 <= k < i * res + j ->
            exists v, sample sp res k = Ok v /\ xs' !! Z.to_nat k = Some v) /\
         (forall n, (Z.to_nat (i * res + j) <= n)%nat -> xs' !! n = x sol !! n))
      (fun j xs =>
                       do p <- load (coeff sp) i;
                       do ci <- view (cells sp) p;
                       do v <- polynomial ci (fdiv (of_int j) (of_int res));
                       store xs (to_int (j + i * res)) v)
      res xs) as (xs' & Hrun & Hxs' & Hdone' & Hframe').
    + lia.
    + split; [exact Hxs |]. split.
      * intros k Hk. apply Hdone. lia.
      * intros n Hn. apply Hframe. lia.
    + intros j t Hj (Ht & Hdone' & Hframe').
      rewrite (load_Ok _ _ (5 * i)) by (lia || now apply wf_coeff_lookup).
      cbn [bind]. rewrite view_Ok by lia. cbn [bind].
      destruct (polynomial_Ok (drop (Z.to_nat (5 * i)) (cells sp))
                  (fdiv (of_int j) (of_int res))) as [v Hv].
      { now apply Hcheck. }
      { rewrite length_drop. lia. }
      rewrite Hv. cbn [bind].
      rewrite (to_int_small (j + i * res)) by (unfold INT_MAX; lia).
      rewrite store_Ok by lia.
      eexists. split; [reflexivity |].
      split; [now rewrite length_insert |]. split.
      * intros k Hk. rewrite lookup_store by lia.
        destruct (decide (Z.to_nat (j + i * res) = Z.to_nat k)) as [E | E].
        -- exists v. split; [| reflexivity].
           assert (k = i * res + j) as -> by lia.
           unfold sample.
           rewrite Z.div_add_l, Z.div_small, Z.add_0_r by lia.
           rewrite Z.add_comm, Z.mod_add, Z.mod_small by lia.
           rewrite wf_row by (assumption || lia).
           now rewrite polynomial_take by lia.
        -- apply Hdone'. lia.
      * intros n Hn. rewrite lookup_store by lia.
        destruct (decide (Z.to_nat (j + i * res) = n)); [lia |].
        apply Hframe'. lia.
    + rewrite Hrun. cbn [bind]. eexists. split; [reflexivity |].
      cbn [fst snd]. split.
      { rewrite to_int_small by (unfold INT_MAX; lia). lia. }
      split; [exact Hxs' |]. split.
      * intros k Hk. apply Hdone'. lia.
      * intros n Hn. apply Hframe'. lia.
  - rewrite Hrun. cbn [bind]. exists xs. cbn [snd] in *.
    split; [reflexivity |]. split; [exact Hxs |]. split.
    + intros k0 Hk0. apply Hdone. lia.
    + intros n Hn. apply Hframe. lia.
Qed.

End Facts.

(** ** binary64 *)

Section Binary64.

Lemma b64_zero : b64_of_int 0 = S754_zero false.
Proof. reflexivity. Qed.

Lemma b64_one : b64_of_int 1 = S754_finite false 4503599627370496 (-52).
Proof. reflexivity. Qed.

Lemma digits_shift (m k : positive) :
  Z.pos (digits2_pos (Pos.iter xO m k)) = Z.pos (digits2_pos m) + Z.pos k.
Proof.
  induction k as [| k IH] using Pos.peano_ind.
  - simpl. lia.
  - rewrite Pos.iter_succ. simpl. lia.
Qed.

Lemma digits_bound (m : positive) (n : Z) :
  0 <= n -> Z.pos m < 2 ^ n -> Z.pos (digits2_pos m) <= n.
Proof.
  revert n. induction m as [m IH | m IH |]; intros n Hn Hm.
  - assert (0 < n) by (destruct (Z.eq_dec n 0) as [-> |]; [simpl in Hm |]; lia).
    replace n with (Z.succ (n - 1)) in Hm by lia.
    rewrite Z.pow_succ_r in Hm by lia.
    specialize (IH (n - 1)). simpl. lia.
  - assert (0 < n) by (destruct (Z.eq_dec n 0) as [-> |]; [simpl in Hm |]; lia).
    replace n with (Z.succ (n - 1)) in Hm by lia.
    rewrite Z.pow_succ_r in Hm by lia.
    specialize (IH (n - 1)). simpl. lia.
  - destruct (Z.eq_dec n 0) as [-> |]; [simpl in Hm |]; simpl; lia.
Qed.

Lemma shr_shift (k m : positive) :
  SpecFloat.iter_pos shr_1 k (Build_shr_record (Z.pos (Pos.iter xO m k)) false false)
  = Build_shr_record (Z.pos m) false false.
Proof.
  revert m. induction k as [k IH | k IH |]; intros m; simpl.
  - now rewrite !IH.
  - now rewrite !IH.
  - reflexivity.
Qed.

Lemma shr_fexp_canonical (m : positive) (e : Z) :
  fexp 53 1024 (Z.pos (digits2_pos m) + e) = e ->
  shr_fexp 53 1024 (Z.pos m) e loc_Exact
  = (Build_shr_record (Z.pos m) false false, e).
Proof.
  intros Hc. unfold shr_fexp. cbn [Zdigits2 shr_record_of_loc].
  now rewrite Hc, Z.sub_diag.
Qed.

Lemma shr_fexp_shift (m k : positive) (e : Z) :
  fexp 53 1024 (Z.pos (digits2_pos m) + e) = e ->
  shr_fexp 53 1024 (Z.pos (Pos.iter xO m k)) (e - Z.pos k) loc_Exact
  = (Build_shr_record (Z.pos m) false false, e).
Proof.
  intros Hc. unfold shr_fexp. cbn [Zdigits2 shr_record_of_loc].
  rewrite digits_shift.
  replace (Z.pos (digits2_pos m) + Z.pos k + (e - Z.pos k))
    with (Z.pos (digits2_pos m) + e) by lia.
  rewrite Hc. replace (e - (e - Z.pos k)) with (Z.pos k) by lia.
  cbn [shr]. rewrite shr_shift. f_equal. lia.
Qed.

(** Rounding a mantissa that is already canonical changes nothing. *)
Lemma round_bounded (s : bool) (m : positive) (e : Z) :
  bounded 53 1024 m e = true ->
  binary_round_aux 53 1024 s (Z.pos m) e loc_Exact = S754_finite s m e.
Proof.
  intros Hb. unfold bounded, canonical_mantissa in Hb.
  apply andb_true_iff in Hb as [Hc He].
  apply Z.eqb_eq in Hc. apply Z.leb_le in He.
  unfold binary_round_aux. rewrite shr_fexp_canonical by exact Hc.
  cbn [shr_m loc_of_shr_record round_nearest_even].
  rewrite shr_fexp_canonical by exact Hc. cbn [shr_m].
  destruct (Z.leb_spec e (1024 - 53)); [reflexivity | lia].
Qed.

(** x * 1.0 is x *)
Lemma mul_one (x : double) :
  valid_binary 53 1024 x = true -> SFmul 53 1024 x (b64_of_int 1) = x.
Proof.
  rewrite b64_one. destruct x as [s | s | | s m e]; intros Hv; simpl in Hv.
  - simpl. now rewrite xorb_false_r.
  - simpl. now rewrite xorb_false_r.
  - reflexivity.
  - pose proof Hv as Hb. unfold bounded, canonical_mantissa in Hb.
    apply andb_true_iff in Hb as [Hc He].
    apply Z.eqb_eq in Hc. apply Z.leb_le in He.
    unfold SFmul. rewrite xorb_false_r.
    replace (m * 4503599627370496)%positive with (Pos.iter xO m 52)
      by (rewrite Pos.mul_comm; reflexivity).
    rewrite <- (round_bounded s m e Hv).
    unfold binary_round_aux.
    change (e + -52) with (e - Z.pos 52).
    rewrite shr_fexp_shift by exact Hc.
    now rewrite shr_fexp_canonical by exact Hc.
Qed.

(** The sign of a rounded non-negative mantissa. *)
Lemma shr_1_nonneg (mrs : shr_record) : 0 <= shr_m mrs -> 0 <= shr_m (shr_1 mrs).
Proof.
  destruct mrs as [m r s]. destruct m as [| [p | p |] | p]; simpl; lia.
Qed.

Lemma iter_shr_1_nonneg (n : positive) (mrs : shr_record) :
  0 <= shr_m mrs -> 0 <= shr_m (SpecFloat.iter_pos shr_1 n mrs).
Proof.
  revert mrs. induction n as [n IH | n IH |]; intros mrs Hm; simpl.
  - apply IH, IH. now apply shr_1_nonneg.
  - now apply IH, IH.
  - now apply shr_1_nonneg.
Qed.

Lemma shr_fexp_nonneg (m e : Z) (l : location) :
  0 <= m -> 0 <= shr_m (fst (shr_fexp 53 1024 m e l)).
Proof.
  intros Hm. unfold shr_fexp, shr.
  assert (Hr : 0 <= shr_m (shr_record_of_loc m l))
    by (destruct l as [| []]; exact Hm).
  destruct (fexp 53 1024 (Zdigits2 m + e) - e); cbn [fst]; try exact Hr.
  now apply iter_shr_1_nonneg.
Qed.

Lemma round_nearest_even_nonneg (m : Z) (l : location) :
  0 <= m -> 0 <= round_nearest_even m l.
Proof.
  intros Hm. destruct l as [| []]; simpl; try lia.
  destruct (Z.even m); lia.
Qed.

Lemma round_nonneg (m e : Z) (l : location) :
  0 <= m -> nonneg (binary_round_aux 53 1024 false m e l) = true.
Proof.
  intros Hm. unfold binary_round_aux.
  pose proof (shr_fexp_nonneg m e l Hm) as H1.
  destruct (shr_fexp 53 1024 m e l) as [mrs' e']. cbn [fst] in H1.
  pose proof (shr_fexp_nonneg _ e' loc_Exact
                (round_nearest_even_nonneg _ (loc_of_shr_record mrs') H1)) as H2.
  destruct (shr_fexp 53 1024 _ e' loc_Exact) as [mrs'' e'']. cbn [fst] in H2.
  destruct (shr_m mrs'') as [| p | p]; [reflexivity | | lia].
  now destruct (e'' <=? 1024 - 53).
Qed.

(** (double) z for an int z >= 0 *)
Lemma b64_of_int_nonneg (z : Z) : 0 <= z -> nonneg (b64_of_int z) = true.
Proof.
  intros Hz. destruct z as [| p | p]; [reflexivity | | lia].
  unfold b64_of_int, binary_normalize, binary_round.
  destruct (shl_align p 0 _) as [mz ez]. now apply round_nonneg.
Qed.

(** (double) z for an int z > 0 is exact: a finite, non-zero value *)
Lemma b64_of_int_pos (z : Z) :
  0 < z < 2 ^ 53 -> exists m e, b64_of_int z = S754_finite false m e.
Proof.
  intros Hz. destruct z as [| p | p]; try lia.
  pose proof (digits_bound p 53 ltac:(lia) ltac:(lia)) as Hd.
  unfold b64_of_int, binary_normalize, binary_round.
  assert (Hf : fexp 53 1024 (Z.pos (digits2_pos p) + 0) = Z.pos (digits2_pos p) - 53)
    by (unfold fexp, emin; lia).
  rewrite Hf. unfold shl_align.
  destruct (Z.pos (digits2_pos p) - 53 - 0) as [| d | d] eqn:Hsh; try lia.
  - rewrite round_bounded; [eauto |].
    unfold bounded, canonical_mantissa. rewrite Hf.
    apply andb_true_iff. split; [apply Z.eqb_eq | apply Z.leb_le]; lia.
  - rewrite round_bounded; [eauto |].
    unfold bounded, canonical_mantissa. rewrite digits_shift.
    apply andb_true_iff. split; [apply Z.eqb_eq | apply Z.leb_le];
      unfold fexp, emin; lia.
Qed.

(** (double) j / res for ints 0 <= j and 0 < res: never NaN *)
Lemma b64_div_nonneg (j res : Z) :
  0 <= j -> 0 < res < 2 ^ 53 ->
  nonneg (SFdiv 53 1024 (b64_of_int j) (b64_of_int res)) = true.
Proof.
  intros Hj Hres.
  destruct (b64_of_int_pos res Hres) as (m2 & e2 & ->).
  pose proof (b64_of_int_nonneg j Hj) as Hn.
  destruct (b64_of_int j) as [[] | [] | | [] m1 e1]; try discriminate; try reflexivity.
  unfold SFdiv. cbn [xorb].
  destruct (SFdiv_core_binary 53 1024 (Z.pos m1) e1 (Z.pos m2) e2) as [[mz ez] lz] eqn:Hcore.
  apply round_nonneg.
  unfold SFdiv_core_binary in Hcore.
  set (sh := e1 - e2 - _) in Hcore.
  set (m' := match sh with Z.pos _ => _ | 0 => _ | Z.neg _ => _ end) in Hcore.
  assert (Hm' : 0 <= m').
  { subst m'. destruct sh; try lia. apply Z.shiftl_nonneg. lia. }
  pose proof (Z.div_pos m' (Z.pos m2) Hm' ltac:(lia)) as Hq.
  unfold Z.div in Hq. destruct (Z.div_eucl m' (Z.pos m2)) as [q r].
  congruence.
Qed.

Lemma nonneg_t_check (t : double) : nonneg t = true -> t_check t = true.
Proof.
  unfold t_check. cbn [of_int fle binary64]. rewrite b64_zero.
  destruct t as [[] | [] | | [] m e]; try discriminate; reflexivity.
Qed.

Lemma t_check_not_nan (t : double) : t <> S754_nan -> t_check t = true.
Proof.
  unfold t_check. cbn [of_int fle binary64]. rewrite b64_zero, b64_one.
  destruct t as [[] | [] | | [] m e]; try reflexivity. congruence.
Qed.

Lemma SFeqb_refl (f : double) : f <> S754_nan -> SFeqb f f = true.
Proof.
  intros Hf. unfold SFeqb, SFcompare.
  destruct f as [s | [] | | [] m e]; try reflexivity; try congruence;
    now rewrite Z.compare_refl, Pos.compare_cont_refl.
Qed.

(** x * 0.0 is a zero for a finite x; zeros add up to a zero; a zero
    added to c compares equal to c. *)
Lemma mul_zero (f : double) :
  finite f = true -> is_zero (SFmul 53 1024 f (b64_of_int 0)) = true.
Proof. rewrite b64_zero. now destruct f. Qed.

Lemma add_zeros (f g : double) :
  is_zero f = true -> is_zero g = true -> is_zero (SFadd 53 1024 f g) = true.
Proof. destruct f as [[] | | |], g as [[] | | |]; try discriminate; reflexivity. Qed.

Lemma add_zero_l (z c : double) :
  is_zero z = true -> c <> S754_nan -> SFeqb (SFadd 53 1024 z c) c = true.
Proof.
  intros Hz Hc. destruct z as [sz | | |]; try discriminate.
  destruct c as [sc | sc | | sc m e]; try congruence.
  - now destruct sz, sc.
  - now apply SFeqb_refl.
  - now apply SFeqb_refl.
Qed.

Lemma is_zero_finite (f : double) : is_zero f = true -> finite f = true.
Proof. now destruct f. Qed.

End Binary64.

(** ** Integers in binary64: sums and products that do not round *)

Lemma iter_xO_Z (m k : positive) :
  Z.pos (Pos.iter xO m k) = Z.pos m * 2 ^ Z.pos k.
Proof.
  induction k as [| k IH] using Pos.peano_ind.
  - simpl. lia.
  - rewrite Pos.iter_succ, Pos2Z.inj_succ, Z.pow_succ_r by lia.
    rewrite Pos2Z.inj_xO, IH. ring.
Qed.

Lemma digits_lt (p : positive) : Z.pos p < 2 ^ Z.pos (digits2_pos p).
Proof.
  induction p as [p IH | p IH |]; cbn [digits2_pos];
    rewrite ?Pos2Z.inj_succ, ?Z.pow_succ_r by lia; lia.
Qed.

Lemma digits_ge (p : positive) : 2 ^ (Z.pos (digits2_pos p) - 1) <= Z.pos p.
Proof.
  induction p as [p IH | p IH |]; cbn [digits2_pos].
  - rewrite Pos2Z.inj_succ.
    replace (Z.succ (Z.pos (digits2_pos p)) - 1)
      with (Z.succ (Z.pos (digits2_pos p) - 1)) by lia.
    rewrite Z.pow_succ_r by lia. lia.
  - rewrite Pos2Z.inj_succ.
    replace (Z.succ (Z.pos (digits2_pos p)) - 1)
      with (Z.succ (Z.pos (digits2_pos p) - 1)) by lia.
    rewrite Z.pow_succ_r by lia. lia.
  - simpl. lia.
Qed.

Lemma digits_mul_ge (p q : positive) :
  Z.pos (digits2_pos p) + Z.pos (digits2_pos q) - 1
  <= Z.pos (digits2_pos (p * q)).
Proof.
  pose proof (digits_ge p) as Hp. pose proof (digits_ge q) as Hq.
  pose proof (digits_lt (p * q)) as Hpq.
  assert (Hlow : 2 ^ (Z.pos (digits2_pos p) - 1 + (Z.pos (digits2_pos q) - 1))
                 <= Z.pos (p * q)).
  { rewrite Z.pow_add_r by lia. rewrite Pos2Z.inj_mul.
    apply Z.mul_le_mono_nonneg; try assumption; apply Z.pow_nonneg; lia. }
  assert (Hlt : Z.pos (digits2_pos p) - 1 + (Z.pos (digits2_pos q) - 1)
                < Z.pos (digits2_pos (p * q))).
  { apply (Z.pow_lt_mono_r_iff 2); lia. }
  lia.
Qed.

(** Rounding a canonical mantissa shifted left by [k] bits, the exponent
    lowered by [k], gives the canonical value back. *)
Lemma round_shift (s : bool) (m k : positive) (e : Z) :
  bounded 53 1024 m e = true ->
  binary_round_aux 53 1024 s (Z.pos (Pos.iter xO m k)) (e - Z.pos k) loc_Exact
  = S754_finite s m e.
Proof.
  intros Hv. pose proof Hv as Hb. unfold bounded, canonical_mantissa in Hb.
  apply andb_true_iff in Hb as [Hc He].
  apply Z.eqb_eq in Hc. apply Z.leb_le in He.
  rewrite <- (round_bounded s m e Hv).
  unfold binary_round_aux.
  rewrite shr_fexp_shift by exact Hc.
  now rewrite shr_fexp_canonical by exact Hc.
Qed.

Lemma round_aux_exact (s : bool) (M m : positive) (E e : Z) :
  bounded 53 1024 m e = true -> E <= e ->
  Z.pos M = Z.pos m * 2 ^ (e - E) ->
  binary_round_aux 53 1024 s (Z.pos M) E loc_Exact = S754_finite s m e.
Proof.
  intros Hb HE HM.
  destruct (e - E) as [| k | k] eqn:Hk; try lia.
  - assert (M = m) as -> by (simpl in HM; lia).
    replace E with e by lia. now apply round_bounded.
  - rewrite <- iter_xO_Z in HM. injection HM as ->.
    replace E with (e - Z.pos k) by lia. now apply round_shift.
Qed.

(** [binary_round] of a mantissa and exponent with the value of a
    canonical pair gives that pair. *)
Lemma round_exact_le (s : bool) (M m : positive) (E e : Z) :
  bounded 53 1024 m e = true -> E <= e ->
  Z.pos M = Z.pos m * 2 ^ (e - E) ->
  binary_round 53 1024 s M E = S754_finite s m e.
Proof.
  intros Hb HE HM. pose proof Hb as Hb'. unfold bounded, canonical_mantissa in Hb'.
  apply andb_true_iff in Hb' as [Hc _]. apply Z.eqb_eq in Hc.
  unfold binary_round.
  assert (Hd : Z.pos (digits2_pos M) + E = Z.pos (digits2_pos m) + e).
  { destruct (e - E) as [| k | k] eqn:Hk; try lia.
    - assert (M = m) as -> by (simpl in HM; lia). lia.
    - rewrite <- iter_xO_Z in HM. injection HM as ->.
      rewrite digits_shift. lia. }
  rewrite Hd, Hc. unfold shl_align.
  destruct (e - E) as [| k | k] eqn:Hk; try lia;
    apply round_aux_exact; try assumption; try lia; now rewrite Hk.
Qed.

Lemma round_exact_ge (s : bool) (M m : positive) (E e : Z) :
  bounded 53 1024 m e = true -> e <= E ->
  Z.pos m = Z.pos M * 2 ^ (E - e) ->
  binary_round 53 1024 s M E = S754_finite s m e.
Proof.
  intros Hb HE HM.
  destruct (Z.eq_dec E e) as [-> | Hne].
  { apply round_exact_le; [assumption | lia |].
    rewrite Z.sub_diag in *. simpl in *. lia. }
  pose proof Hb as Hb'. unfold bounded, canonical_mantissa in Hb'.
  apply andb_true_iff in Hb' as [Hc _]. apply Z.eqb_eq in Hc.
  unfold binary_round.
  destruct (E - e) as [| k | k] eqn:Hk; try lia.
  rewrite <- iter_xO_Z in HM. injection HM as ->.
  rewrite digits_shift in Hc.
  replace (Z.pos (digits2_pos M) + E)
    with (Z.pos (digits2_pos M) + Z.pos k + e) by lia.
  rewrite Hc. unfold shl_align.
  replace (e - E) with (Z.neg k) by lia.
  now apply round_bounded.
Qed.

(** The canonical mantissa of a positive integer below 2^53. *)
Lemma canonical_exists (p : positive) :
  Z.pos p < 2 ^ 53 ->
  exists m,
    bounded 53 1024 m (Z.pos (digits2_pos p) - 53) = true /\
    Z.pos m = Z.pos p * 2 ^ (53 - Z.pos (digits2_pos p)).
Proof.
  intros Hp. pose proof (digits_bound p 53 ltac:(lia) Hp) as Hd.
  destruct (53 - Z.pos (digits2_pos p)) as [| k | k] eqn:Hk; try lia.
  - exists p. split; [| simpl; lia].
    unfold bounded, canonical_mantissa, fexp, emin.
    apply andb_true_iff. split; [apply Z.eqb_eq | apply Z.leb_le]; lia.
  - exists (Pos.iter xO p k). split; [| apply iter_xO_Z].
    unfold bounded, canonical_mantissa, fexp, emin. rewrite digits_shift.
    apply andb_true_iff. split; [apply Z.eqb_eq | apply Z.leb_le]; lia.
Qed.

Lemma round_int (s : bool) (p m : positive) :
  bounded 53 1024 m (Z.pos (digits2_pos p) - 53) = true ->
  Z.pos m = Z.pos p * 2 ^ (53 - Z.pos (digits2_pos p)) ->
  Z.pos p < 2 ^ 53 ->
  binary_round 53 1024 s p 0 = S754_finite s m (Z.pos (digits2_pos p) - 53).
Proof.
  intros Hb Hm Hp. pose proof (digits_bound p 53 ltac:(lia) Hp) as Hd.
  apply round_exact_ge; [assumption | lia |].
  rewrite Hm. f_equal. f_equal. lia.
Qed.

(** A mantissa [p * 2^K] with exponent [-K] is the integer [p]. *)
Lemma round_scaled (s : bool) (M p : positive) (K : Z) :
  0 <= K -> Z.pos p < 2 ^ 53 -> Z.pos M = Z.pos p * 2 ^ K ->
  binary_round 53 1024 s M (- K) = binary_round 53 1024 s p 0.
Proof.
  intros HK Hp HM. pose proof (digits_bound p 53 ltac:(lia) Hp) as Hd.
  destruct (canonical_exists p Hp) as (m & Hb & Hm).
  rewrite (round_int s p m Hb Hm Hp).
  destruct (Z.le_gt_cases (- K) (Z.pos (digits2_pos p) - 53)) as [Hle | Hgt].
  - apply round_exact_le; [assumption | lia |].
    rewrite HM, Hm, <- Z.mul_assoc, <- Z.pow_add_r by lia.
    f_equal. f_equal. lia.
  - apply round_exact_ge; [assumption | lia |].
    rewrite HM, Hm, <- Z.mul_assoc, <- Z.pow_add_r by lia.
    f_equal. f_equal. lia.
Qed.

Lemma normalize_scaled (z K : Z) :
  0 <= K -> Z.abs z < 2 ^ 53 ->
  binary_normalize 53 1024 (z * 2 ^ K) (- K) false = b64_of_int z.
Proof.
  intros HK Hz. unfold b64_of_int.
  pose proof (Z.pow_pos_nonneg 2 K ltac:(lia) HK) as Hpow.
  destruct z as [| p | p].
  - reflexivity.
  - destruct (Z.pos p * 2 ^ K) as [| M | M] eqn:HM; try lia.
    cbn [binary_normalize]. apply round_scaled; [assumption | lia | lia].
  - destruct (Z.neg p * 2 ^ K) as [| M | M] eqn:HM; try lia.
    cbn [binary_normalize]. apply round_scaled; [assumption | lia | lia].
Qed.

Lemma b64_of_int_pos_round (p : positive) :
  b64_of_int (Z.pos p) = binary_round 53 1024 false p 0.
Proof. reflexivity. Qed.

Lemma b64_of_int_neg_round (p : positive) :
  b64_of_int (Z.neg p) = binary_round 53 1024 true p 0.
Proof. reflexivity. Qed.

(** (double) z for an int z with 0 < |z| < 2^53 is a finite value. *)
Lemma b64_of_int_finite (z : Z) :
  z <> 0 -> Z.abs z < 2 ^ 53 ->
  exists s m e, b64_of_int z = S754_finite s m e.
Proof.
  intros Hz Hb. destruct z as [| p | p]; [congruence | |].
  - destruct (canonical_exists p Hb) as (m & Hv & Hm).
    rewrite b64_of_int_pos_round, (round_int false p m Hv Hm Hb). eauto.
  - destruct (canonical_exists p Hb) as (m & Hv & Hm).
    rewrite b64_of_int_neg_round, (round_int true p m Hv Hm Hb). eauto.
Qed.

(** The product of two integers, when it is below 2^53, is exact. *)
Lemma mul_round (sa sb : bool) (pa pb : positive) :
  Z.pos (pa * pb) < 2 ^ 53 ->
  SFmul 53 1024 (binary_round 53 1024 sa pa 0) (binary_round 53 1024 sb pb 0)
  = binary_round 53 1024 (xorb sa sb) (pa * pb) 0.
Proof.
  intros Hab.
  assert (Ha : Z.pos pa < 2 ^ 53) by (rewrite Pos2Z.inj_mul in Hab; nia).
  assert (Hb : Z.pos pb < 2 ^ 53) by (rewrite Pos2Z.inj_mul in Hab; nia).
  destruct (canonical_exists pa Ha) as (ma & Hva & Hma).
  destruct (canonical_exists pb Hb) as (mb & Hvb & Hmb).
  destruct (canonical_exists (pa * pb) Hab) as (mc & Hvc & Hmc).
  rewrite (round_int sa pa ma Hva Hma Ha), (round_int sb pb mb Hvb Hmb Hb).
  rewrite (round_int _ (pa * pb) mc Hvc Hmc Hab).
  pose proof (digits_bound pa 53 ltac:(lia) Ha) as Hda.
  pose proof (digits_bound pb 53 ltac:(lia) Hb) as Hdb.
  pose proof (digits_bound (pa * pb) 53 ltac:(lia) Hab) as Hdc.
  pose proof (digits_mul_ge pa pb) as Hge.
  cbn [SFmul]. apply round_aux_exact; [assumption | lia |].
  rewrite Pos2Z.inj_mul, Hma, Hmb, Hmc, Pos2Z.inj_mul.
  set (da := Z.pos (digits2_pos pa)) in *.
  set (db := Z.pos (digits2_pos pb)) in *.
  set (dc := Z.pos (digits2_pos (pa * pb))) in *.
  assert (Hpow : 2 ^ (53 - da) * 2 ^ (53 - db)
                 = 2 ^ (53 - dc) * 2 ^ (dc - 53 - (da - 53 + (db - 53)))).
  { rewrite <- !Z.pow_add_r by lia. f_equal. lia. }
  replace (Z.pos pa * 2 ^ (53 - da) * (Z.pos pb * 2 ^ (53 - db)))
    with (Z.pos pa * Z.pos pb * (2 ^ (53 - da) * 2 ^ (53 - db))) by ring.
  rewrite Hpow. ring.
Qed.

Lemma mul_ints (a b : Z) :
  a <> 0 -> b <> 0 -> Z.abs (a * b) < 2 ^ 53 ->
  SFmul 53 1024 (b64_of_int a) (b64_of_int b) = b64_of_int (a * b).
Proof.
  intros Ha Hb Hab.
  destruct a as [| pa | pa], b as [| pb | pb]; try congruence;
    rewrite ?b64_of_int_pos_round, ?b64_of_int_neg_round;
    rewrite mul_round by (simpl in Hab; lia); reflexivity.
Qed.

(** Aligning a mantissa to a lower exponent multiplies it by a power
    of two. *)
Lemma shl_align_Z (m : positive) (e ez : Z) :
  ez <= e -> Z.pos (fst (shl_align m e ez)) = Z.pos m * 2 ^ (e - ez).
Proof.
  intros He. unfold shl_align.
  destruct (ez - e) as [| k | k] eqn:Hk; try lia; cbn [fst].
  - replace (e - ez) with 0 by lia. simpl. lia.
  - rewrite iter_xO_Z. f_equal. f_equal. lia.
Qed.

Lemma cond_Zopp_mul (s : bool) (a b : Z) :
  cond_Zopp s (a * b) = cond_Zopp s a * b.
Proof. destruct s; simpl; ring. Qed.

(** The sum of two integers, when it is below 2^53, is exact. *)
Lemma add_round (sa sb : bool) (pa pb : positive) :
  Z.pos pa < 2 ^ 53 -> Z.pos pb < 2 ^ 53 ->
  Z.abs (cond_Zopp sa (Z.pos pa) + cond_Zopp sb (Z.pos pb)) < 2 ^ 53 ->
  SFadd 53 1024 (binary_round 53 1024 sa pa 0) (binary_round 53 1024 sb pb 0)
  = b64_of_int (cond_Zopp sa (Z.pos pa) + cond_Zopp sb (Z.pos pb)).
Proof.
  intros Ha Hb Hab.
  destruct (canonical_exists pa Ha) as (ma & Hva & Hma).
  destruct (canonical_exists pb Hb) as (mb & Hvb & Hmb).
  rewrite (round_int sa pa ma Hva Hma Ha), (round_int sb pb mb Hvb Hmb Hb).
  pose proof (digits_bound pa 53 ltac:(lia) Ha) as Hda.
  pose proof (digits_bound pb 53 ltac:(lia) Hb) as Hdb.
  set (da := Z.pos (digits2_pos pa)) in *.
  set (db := Z.pos (digits2_pos pb)) in *.
  cbn [SFadd].
  set (ez := Z.min (da - 53) (db - 53)).
  rewrite !shl_align_Z by lia.
  rewrite Hma, Hmb, <- !Z.mul_assoc, <- !Z.pow_add_r by lia.
  replace (53 - da + (da - 53 - ez)) with (- ez) by lia.
  replace (53 - db + (db - 53 - ez)) with (- ez) by lia.
  rewrite !cond_Zopp_mul, <- Z.mul_add_distr_r.
  pose proof (normalize_scaled (cond_Zopp sa (Z.pos pa) + cond_Zopp sb (Z.pos pb))
                (- ez) ltac:(lia) Hab) as Hn.
  now rewrite Z.opp_involutive in Hn.
Qed.

Lemma add_ints (a b : Z) :
  a <> 0 -> b <> 0 ->
  Z.abs a < 2 ^ 53 -> Z.abs b < 2 ^ 53 -> Z.abs (a + b) < 2 ^ 53 ->
  SFadd 53 1024 (b64_of_int a) (b64_of_int b) = b64_of_int (a + b).
Proof.
  intros Ha Hb Ba Bb Hab.
  destruct a as [| pa | pa], b as [| pb | pb]; try congruence.
  - rewrite !b64_of_int_pos_round.
    now rewrite (add_round false false) by (cbn [cond_Zopp Z.opp]; lia).
  - rewrite b64_of_int_pos_round, b64_of_int_neg_round.
    now rewrite (add_round false true) by (cbn [cond_Zopp Z.opp]; lia).
  - rewrite b64_of_int_pos_round, b64_of_int_neg_round.
    now rewrite (add_round true false) by (cbn [cond_Zopp Z.opp]; lia).
  - rewrite !b64_of_int_neg_round.
    now rewrite (add_round true true) by (cbn [cond_Zopp Z.opp]; lia).
Qed.

Lemma int_below_of_int (B z : Z) :
  Z.abs z <= B -> B < 2 ^ 53 -> int_below B (b64_of_int z) z.
Proof.
  intros Hz HB. split; [exact Hz |]. split; [exact HB |].
  destruct (Z.eqb_spec z 0) as [-> | _]; reflexivity.
Qed.

Lemma int_below_cases (B : Z) (x : double) (z : Z) :
  int_below B x z ->
  (z = 0 /\ exists s, x = S754_zero s) \/
  (z <> 0 /\ x = b64_of_int z /\ exists s m e, x = S754_finite s m e).
Proof.
  intros (Hz & HB & Hx). destruct (Z.eqb_spec z 0) as [-> | Hne].
  - left. split; [reflexivity |]. destruct x; try discriminate. eauto.
  - right. split; [exact Hne |]. split; [exact Hx |]. subst x.
    apply b64_of_int_finite; [exact Hne | lia].
Qed.

Lemma int_below_mul (A B : Z) (x y : double) (a b : Z) :
  int_below A x a -> int_below B y b -> A * B < 2 ^ 53 ->
  int_below (A * B) (SFmul 53 1024 x y) (a * b).
Proof.
  intros Hx Hy HAB.
  pose proof Hx as (Ha & _ & _). pose proof Hy as (Hb & _ & _).
  assert (Hab : Z.abs (a * b) <= A * B).
  { rewrite Z.abs_mul. apply Z.mul_le_mono_nonneg; lia. }
  split; [exact Hab |]. split; [exact HAB |].
  destruct (int_below_cases A x a Hx) as [(-> & sx & ->) | (Hna & Ex & sx & mx & ex & Ex')];
    destruct (int_below_cases B y b Hy) as [(-> & sy & ->) | (Hnb & Ey & sy & my & ey & Ey')].
  - reflexivity.
  - rewrite Ey'. reflexivity.
  - rewrite Ex', Z.mul_0_r. reflexivity.
  - destruct (Z.eqb_spec (a * b) 0) as [E0 | _]; [lia |].
    rewrite Ex, Ey. apply mul_ints; [assumption | assumption | lia].
Qed.

Lemma int_below_add (A B : Z) (x y : double) (a b : Z) :
  int_below A x a -> int_below B y b -> A + B < 2 ^ 53 ->
  int_below (A + B) (SFadd 53 1024 x y) (a + b).
Proof.
  intros Hx Hy HAB.
  pose proof Hx as (Ha & HA & _). pose proof Hy as (Hb & HB & _).
  split; [lia |]. split; [exact HAB |].
  destruct (int_below_cases A x a Hx) as [(-> & sx & ->) | (Hna & Ex & sx & mx & ex & Ex')];
    destruct (int_below_cases B y b Hy) as [(-> & sy & ->) | (Hnb & Ey & sy & my & ey & Ey')].
  - now destruct sx, sy.
  - rewrite Z.add_0_l. destruct (Z.eqb_spec b 0) as [E0 | _]; [lia |].
    rewrite Ey' in *. exact Ey.
  - rewrite Z.add_0_r. destruct (Z.eqb_spec a 0) as [E0 | _]; [lia |].
    rewrite Ex' in *. exact Ex.
  - rewrite Ex, Ey, add_ints by (assumption || lia).
    destruct (Z.eqb_spec (a + b) 0) as [-> | _]; reflexivity.
Qed.

(** Two values that hold the same integer compare equal. *)
Lemma int_below_eqb (A B : Z) (x y : double) (a b : Z) :
  int_below A x a -> int_below B y b -> a = b -> SFeqb x y = true.
Proof.
  intros Hx Hy <-.
  destruct (int_below_cases A x a Hx) as [(Ea & sx & ->) | (Hna & Ex & sx & mx & ex & Ex')];
    destruct (int_below_cases B y a Hy) as [(E & sy & ->) | (Hnb & Ey & _)];
    try congruence.
  - reflexivity.
  - rewrite Ey, <- Ex. apply SFeqb_refl. rewrite Ex'. discriminate.
Qed.

Lemma int_below_zero (B : Z) (x : double) :
  int_below B x 0 -> is_zero x = true.
Proof. now intros (_ & _ & Hx). Qed.

Lemma int_below_weaken (A B : Z) (x : double) (z z' : Z) :
  int_below A x z -> z = z' -> A <= B -> B < 2 ^ 53 -> int_below B x z'.
Proof.
  intros (Hz & _ & Hx) <- HAB HB. split; [lia |]. split; assumption.
Qed.

Lemma int_below_eqb_of_int (A : Z) (x : double) (z z' : Z) :
  int_below A x z -> z = z' -> SFeqb x (b64_of_int z') = true.
Proof.
  intros Hx <-. pose proof Hx as (Hz & HA & _).
  apply (int_below_eqb A A x (b64_of_int z) z z); [exact Hx | | reflexivity].
  now apply int_below_of_int.
Qed.

(** The value an expression of sums and products of integers holds;
    [side] proves that the bounds stay below 2^53. *)
Ltac int_value side :=
  lazymatch goal with
  | |- int_below _ (SFadd _ _ _ _) _ =>
      eapply int_below_add; [int_value side | int_value side | side]
  | |- int_below _ (SFmul _ _ _ _) _ =>
      eapply int_below_mul; [int_value side | int_value side | side]
  | |- int_below _ (b64_of_int ?z) _ =>
      first [ eassumption
            | let b := eval vm_compute in (Z.abs z) in
              apply (int_below_of_int b z); by_evaluation ]
  | |- int_below _ _ _ => eassumption
  end.

Ltac int_eqb side :=
  eapply int_below_eqb; [int_value side | int_value side | ring].

Ltac int_is side :=
  eapply int_below_weaken; [int_value side | ring | side | side].

(** [segment] on a row of integers: the products and partial sums are
    integers of magnitude at most [32 B], and the result holds the
    exact matrix-vector product. *)
Lemma matvec_ints (B g0 g1 g2 g3 g4 : Z) :
  Z.abs g0 <= B -> Z.abs g1 <= B -> Z.abs g2 <= B ->
  Z.abs g3 <= B -> Z.abs g4 <= B -> 32 * B < 2 ^ 53 ->
  exists c0 c1 c2 c3 c4,
    matvec Mcr (b64_of_int <$> [g0; g1; g2; g3; g4]) = [c0; c1; c2; c3; c4] /\
    int_below (16 * B) c0 (g0 - 4 * g1 + 6 * g2 + 4 * g3 + g4) /\
    int_below (32 * B) c1 (- 4 * g0 + 12 * g1 - 12 * g2 + 4 * g3) /\
    int_below (24 * B) c2 (6 * g0 - 12 * g1 + 6 * g2) /\
    int_below (8 * B) c3 (- 4 * g0 + 4 * g1) /\
    int_below B c4 g0.
Proof.
  intros H0 H1 H2 H3 H4 HB.
  assert (Hint : forall z, Z.abs z <= B -> int_below B (b64_of_int z) z).
  { intros z Hz. apply int_below_of_int; [exact Hz | lia]. }
  apply Hint in H0, H1, H2, H3, H4. clear Hint.
  assert (HB0 : 0 <= B) by (destruct H0; lia).
  unfold matvec, dot, Mcr. cbn [fmap list_fmap zip_with fold_left].
  cbn [of_int fadd fmul binary64].
  do 5 eexists. split; [reflexivity |].
  repeat (split; [int_is lia |]). int_is lia.
Qed.

(** * The claims *)

Section Claims.
Context {F : Type} `{Double F}.

(** C4 (as amended).  For every curve of length [L >= DEGREE + 1] whose
    coefficient count [(DEGREE + 1) * (L - DEGREE)] fits an [int],
    [create_spline] returns a spline of [L - DEGREE] segments; segment
    [i] is the [DEGREE + 1] cells from cell [(DEGREE + 1) * i] of the
    block, and the block size and the [len] field are
    [num_segs * (DEGREE + 1)]. *)
Theorem create_spline_segments (cv : curve_t F) :
  DEGREE + 1 <= len cv ->
  (DEGREE + 1) * (len cv - DEGREE) <= INT_MAX ->
  exists s, create_spline cv = Ok s /\
    num_segs s = len cv - DEGREE /\
    (forall i, 0 <= i < num_segs s ->
       coeff s !! Z.to_nat i = Some ((DEGREE + 1) * i) /\
       length (row s i) = Z.to_nat (DEGREE + 1)) /\
    Z.of_nat (length (cells s)) = num_segs s * (DEGREE + 1) /\
    slen s = num_segs s * (DEGREE + 1).
Proof.
  intros Hlo Hhi.
  destruct (create_spline_wf cv) as (s & Hs & Hwf & _ & Hn & _);
    [unfold DEGREE in *; lia | assumption |].
  exists s. split; [exact Hs |]. split; [exact Hn |].
  split; [| destruct Hwf as (_ & _ & Hl & _ & Hc); lia].
  intros i Hi. split.
  - now apply wf_coeff_lookup.
  - now apply wf_row_length.
Qed.

(** C5 (as amended).  For every curve of length [L >= DEGREE + 1],
    [create_spline] sets [num_segs] to [L - DEGREE], that is [L - 4]. *)
Theorem create_spline_num_segs (cv : curve_t F) :
  DEGREE + 1 <= len cv <= UINT_MAX ->
  exists s, create_spline cv = Ok s /\ num_segs s = len cv - DEGREE.
Proof.
  unfold DEGREE, UINT_MAX. intros Hlen.
  rewrite create_spline_eq. eexists. split; [reflexivity |].
  cbn [num_segs]. unfold DEGREE.
  rewrite to_uint_to_int, to_uint_idem.
  apply to_uint_small. unfold UINT_MAX. lia.
Qed.

(** C3 (as amended).  For every curve of length [L >= DEGREE + 1] whose
    coefficient count [(DEGREE + 1) * (L - DEGREE)] fits an [int], and
    for [G] the spline [create_spline] returns for it (or any
    well-formed spline of [L - DEGREE] rows that refers back to it),
    [gmatrix] returns with [L - DEGREE] rows, and row [i] is the
    [DEGREE + 1] consecutive samples [curve[i], ..., curve[i + DEGREE]],
    copied as they are. *)
Theorem gmatrix_sliding_window (G : spline_t F) (cv : curve_t F) :
  wf_curve cv -> DEGREE + 1 <= len cv ->
  (DEGREE + 1) * (len cv - DEGREE) <= INT_MAX ->
  create_spline cv = Ok G \/
  (wf_spline G /\ curve G = Some cv /\ num_segs G = len cv - DEGREE) ->
  exists G',
    gmatrix G cv = Ok G' /\
    num_segs G' = len cv - DEGREE /\
    (forall i, 0 <= i < num_segs G' ->
       row G' i = take (Z.to_nat (DEGREE + 1)) (drop (Z.to_nat i) (x cv)) /\
       length (row G' i) = Z.to_nat (DEGREE + 1)).
Proof.
  intros [Hrange Hx] Hlen Hmax HG.
  assert (HG' : wf_spline G /\ curve G = Some cv /\ num_segs G = len cv - DEGREE).
  { destruct HG as [Hmade | HG]; [| exact HG].
    destruct (create_spline_wf cv) as (s & Hs & Hwf & Hcurve & Hn & _);
      [lia | exact Hmax |].
    rewrite Hs in Hmade. injection Hmade as <-. auto. }
  destruct HG' as (Hwf & Hcurve & Hsegs).
  destruct (gmatrix_rows G cv cv Hwf Hcurve Hsegs) as
    (G' & Hrun & _ & _ & _ & Hn & _ & Hrows); [lia |].
  exists G'. split; [exact Hrun |]. split; [congruence |].
  intros i Hi. rewrite Hrows by lia. split; [reflexivity |].
  rewrite length_take, length_drop. unfold DEGREE in *. lia.
Qed.

(** C10.  [gmatrix (G, curve)] takes the number of rows it fills from
    the curve [G] refers back to: for a well-formed [G] of at least
    [G.curve.len - DEGREE] rows it fills the rows below
    [G.curve.len - DEGREE] with the samples of the curve argument and
    leaves every row from there up to [G.num_segs] as it was; [num_segs]
    is kept; the [len] of the curve argument is not read: the result is
    the same whatever it is. *)
Theorem gmatrix_rows_from_backref (G : spline_t F) (gc cv : curve_t F) :
  wf_spline G -> curve G = Some gc ->
  0 <= len gc -> len gc - DEGREE <= num_segs G ->
  len gc <= Z.of_nat (length (x cv)) ->
  exists G',
    gmatrix G cv = Ok G' /\
    (forall i, 0 <= i < len gc - DEGREE ->
       row G' i = take (Z.to_nat (DEGREE + 1)) (drop (Z.to_nat i) (x cv))) /\
    (forall i, 0 <= i -> len gc - DEGREE <= i < num_segs G ->
       row G' i = row G i) /\
    num_segs G' = num_segs G /\
    (forall n, gmatrix G {| x := x cv; len := n |} = Ok G').
Proof.
  intros Hwf Hcurve Hlen0 Hsegs Hx.
  destruct (gmatrix_fill G gc cv Hwf Hcurve Hlen0 Hsegs Hx) as
    (c & Hrun & Hlen & Hc & Hrest).
  exists (with_cells G c). split; [exact Hrun |].
  split; [| split; [| split; [reflexivity | intros n; exact Hrun]]].
  - intros i Hi. unfold row, with_cells. cbn [coeff cells].
    rewrite (wf_coeff_lookup G i Hwf) by lia.
    apply take_drop_ext. intros j Hj.
    specialize (Hc i (Z.of_nat j) Hi). unfold DEGREE in *.
    replace (Z.to_nat ((4 + 1) * i) + j)%nat
      with (Z.to_nat ((4 + 1) * i + Z.of_nat j)) by lia.
    replace (Z.to_nat i + j)%nat with (Z.to_nat (i + Z.of_nat j)) by lia.
    apply Hc. lia.
  - intros i Hi0 Hi. unfold row, with_cells. cbn [coeff cells].
    rewrite (wf_coeff_lookup G i Hwf) by lia.
    apply take_drop_ext. intros j Hj. apply Hrest.
    unfold DEGREE in *. lia.
Qed.

(** C1.  [segment (S, G)] sets [S] to the matrix-vector product
    [M . G] for every row [G] of [DEGREE + 1] values and every prior
    content of [S], where [Mcr] is the matrix [M] of the specification;
    [coefficients (spline, G)] returns with row [i] of [spline] set to
    [M . G.coeff[i]] for every [i] below [spline.num_segs]. *)
Theorem segment_matvec (S Gi : list F) (sp G : spline_t F) :
  length S = 5%nat -> length Gi = 5%nat ->
  wf_spline sp -> wf_spline G -> num_segs sp <= num_segs G ->
  Mcr = M /\
  segment S Gi = Ok (matvec M Gi) /\
  exists sp',
    coefficients sp G = Ok sp' /\
    num_segs sp' = num_segs sp /\
    (forall i, 0 <= i < num_segs sp -> row sp' i = matvec M (row G i)).
Proof.
  intros HS HGi Hwf HwfG Hle.
  split; [reflexivity |]. change M with Mcr. split.
  - now apply segment_five.
  - destruct (coefficients_spec sp G Hwf HwfG Hle) as (c & Hrun & Hlen & Hrows).
    exists (with_cells sp c). split; [exact Hrun |]. split; [reflexivity |].
    intros i Hi. rewrite <- Hrows by exact Hi.
    unfold row, with_cells. cbn [coeff cells].
    now rewrite (wf_coeff_lookup sp i Hwf Hi).
Qed.

End Claims.

(** ** The claims about values, in binary64 *)

(** C8 (as amended).  In binary64, for geometry rows of integers of
    magnitude at most [B] and an integer scalar of magnitude at most
    [K], with [64 B < 2^53] and [32 K B < 2^53] (every product and
    partial sum is then an integer below [2^53], and no operation
    rounds): [segment] on [k * G] gives a row that compares equal
    ([==], cell by cell) to [k] times the row it gives on [G], and on
    [G1 + G2] a row that compares equal to the sum of the rows it gives
    on [G1] and on [G2]. *)
Theorem segment_linear_integers (K B k : Z) (S : list double) (G1 G2 : list Z) :
  length S = 5%nat -> length G1 = 5%nat -> length G2 = 5%nat ->
  Z.abs k <= K -> K < 2 ^ 53 ->
  Forall (fun g => Z.abs g <= B) G1 -> Forall (fun g => Z.abs g <= B) G2 ->
  64 * B < 2 ^ 53 -> 32 * (K * B) < 2 ^ 53 ->
  exists r1 r2 rk rs,
    segment S (of_int <$> G1) = Ok r1 /\
    segment S (of_int <$> G2) = Ok r2 /\
    segment S (scale (of_int k) (of_int <$> G1)) = Ok rk /\
    row_eqb rk (scale (of_int k) r1) = true /\
    segment S (add_rows (of_int <$> G1) (of_int <$> G2)) = Ok rs /\
    row_eqb rs (add_rows r1 r2) = true.
Proof.
  intros HS H1 H2 Hk HK HG1 HG2 HB HKB.
  destruct G1 as [| a0 [| a1 [| a2 [| a3 [| a4 [| ? ?]]]]]]; try discriminate.
  destruct G2 as [| b0 [| b1 [| b2 [| b3 [| b4 [| ? ?]]]]]]; try discriminate.
  assert (HB0 : 0 <= B) by (apply Forall_cons in HG1 as [? _]; lia).
  assert (HKB0 : 0 <= K * B) by nia.
  assert (Hint : forall z, Z.abs z <= B -> int_below B (b64_of_int z) z).
  { intros z Hz. apply int_below_of_int; [exact Hz | lia]. }
  repeat match goal with
         | HF : Forall _ (_ :: _) |- _ =>
             apply Forall_cons in HF; destruct HF as [?%Hint HF]
         end.
  apply (int_below_of_int K k) in Hk; [| exact HK]. clear Hint HG1 HG2.
  do 4 eexists.
  rewrite !segment_five by (assumption || reflexivity).
  do 3 (split; [reflexivity |]). split; [| split; [reflexivity |]].
  - unfold row_eqb, scale, matvec, dot, Mcr.
    cbn [fmap list_fmap zip_with fold_left length zip forallb fst snd Nat.eqb andb].
    cbn [of_int fadd fmul binary64].
    repeat (apply andb_true_iff; split); try reflexivity; int_eqb lia.
  - unfold row_eqb, add_rows, matvec, dot, Mcr.
    cbn [fmap list_fmap zip_with fold_left length zip forallb fst snd Nat.eqb andb].
    cbn [of_int fadd fmul binary64].
    repeat (apply andb_true_iff; split); try reflexivity; int_eqb lia.
Qed.

Lemma to_int_high (z : Z) :
  INT_MAX < z <= UINT_MAX -> to_int z = z - 4294967296.
Proof.
  unfold INT_MAX, UINT_MAX, to_int. intros Hz.
  replace (z + 2147483648) with (z - 2147483648 + 1 * 4294967296) by lia.
  rewrite Z.mod_add, Z.mod_small by lia. lia.
Qed.

(** A solution longer than [INT_MAX] for a spline of one segment: [res]
    is negative as an [int], the inner loop makes no round, and
    [evaluate] returns the solution as it got it. *)
Lemma evaluate_no_rounds {F : Type} `{Double F} (sp : spline_t F) (sol : curve_t F) :
  num_segs sp = 1 -> INT_MAX < len sol <= UINT_MAX -> evaluate sp sol = Ok sol.
Proof.
  intros Hn Hl. destruct sol as [xs n]. cbn [len] in Hl.
  unfold evaluate. cbn [len x]. rewrite Hn.
  destruct (Z.leb_spec 1 n) as [_ | E]; [| unfold INT_MAX in *; lia].
  cbn [assert bind Z.eqb]. rewrite Z.rem_1_r, Z.div_1_r.
  cbn [assert bind Z.eqb]. rewrite to_int_high by exact Hl.
  unfold for_uint, for_int. change (Z.to_nat 1) with 1%nat. cbn [for_loop bind].
  replace (Z.to_nat (n - 4294967296)) with 0%nat by (unfold UINT_MAX in *; lia).
  reflexivity.
Qed.

(** C2 (as amended).  For every well-formed spline with
    [num_segs >= 1] and every solution curve whose length is a positive
    exact multiple [res * num_segs] of it and at most [INT_MAX],
    [evaluate] returns with [res = solution.len / num_segs] and, for
    every segment [i] and every [j] below [res],
    [solution.x[i * res + j] = polynomial (spline.coeff[i], j / res)];
    the cells from [solution.len] on, and [len], are as they were. *)
Theorem evaluate_samples (sp : spline_t double) (sol : curve_t double) (res : Z) :
  wf_spline sp -> 1 <= num_segs sp -> 1 <= res ->
  len sol = res * num_segs sp ->
  len sol <= INT_MAX -> len sol <= Z.of_nat (length (x sol)) ->
  exists sol',
    evaluate sp sol = Ok sol' /\
    res = len sol / num_segs sp /\
    len sol' = len sol /\ length (x sol') = length (x sol) /\
    (forall i j, 0 <= i < num_segs sp -> 0 <= j < res ->
       exists v,
         polynomial (row sp i) (fdiv (of_int j) (of_int res)) = Ok v /\
         x sol' !! Z.to_nat (i * res + j) = Some v) /\
    (forall n, (Z.to_nat (len sol) <= n)%nat -> x sol' !! n = x sol !! n).
Proof.
  intros Hwf Hsegs Hres Hlen Hmax Hbuf.
  destruct (evaluate_spec sp sol res Hwf Hsegs Hres Hlen Hmax Hbuf)
    as (xs & Hrun & Hxs & Hdone & Hframe).
  - intros j Hj. apply nonneg_t_check, b64_div_nonneg; [lia |].
    unfold INT_MAX in *. nia.
  - eexists. split; [exact Hrun |]. cbn [x len].
    split; [rewrite Hlen, Z.div_mul; lia |].
    split; [reflexivity |]. split; [exact Hxs |]. split; [| exact Hframe].
    intros i j Hi Hj. destruct (Hdone (i * res + j)) as (v & Hv & Hk); [nia |].
    exists v. split; [| exact Hk].
    unfold sample in Hv.
    rewrite Z.div_add_l, Z.div_small, Z.add_0_r in Hv by lia.
    now rewrite Z.add_comm, Z.mod_add, Z.mod_small in Hv by lia.
Qed.

(** C6 (as amended).  For every coefficient row and every [t] that is
    not NaN, [polynomial] returns
    [((c0*t)*t)*t + (c1*t)*t + c2*t + c3] in double arithmetic, and
    reads the first 4 coefficients only; [polynomial (coeff, 0) == c3]
    when [c0], [c1], [c2] are finite and [c3] is not NaN;
    [polynomial (coeff, 1)] is the double [((c0 + c1) + c2) + c3] for
    representable [c0], [c1], [c2], and [==] to it unless that is NaN. *)
Theorem polynomial_value (c0 c1 c2 c3 : double) (rest : list double) (t : double) :
  t <> S754_nan ->
  polynomial (c0 :: c1 :: c2 :: c3 :: rest) t =
    Ok (fadd (fadd (fadd (fmul (fmul (fmul c0 t) t) t)
                         (fmul (fmul c1 t) t))
                   (fmul c2 t))
             c3) /\
  polynomial (c0 :: c1 :: c2 :: c3 :: rest) t = polynomial [c0; c1; c2; c3] t /\
  (finite c0 = true -> finite c1 = true -> finite c2 = true -> c3 <> S754_nan ->
   exists v, polynomial (c0 :: c1 :: c2 :: c3 :: rest) (of_int 0) = Ok v /\
             SFeqb v c3 = true) /\
  (valid c0 = true -> valid c1 = true -> valid c2 = true ->
   exists v, polynomial (c0 :: c1 :: c2 :: c3 :: rest) (of_int 1) = Ok v /\
             v = fadd (fadd (fadd c0 c1) c2) c3 /\
             (v <> S754_nan -> SFeqb v (fadd (fadd (fadd c0 c1) c2) c3) = true)).
Proof.
  intros Ht. unfold valid.
  rewrite !polynomial_eq, (t_check_not_nan t Ht).
  rewrite (t_check_not_nan (of_int 0)), (t_check_not_nan (of_int 1))
    by discriminate.
  split; [reflexivity |]. split; [reflexivity |]. split.
  - intros F0 F1 F2 N3. eexists. split; [reflexivity |].
    cbn [of_int fadd fmul binary64].
    apply add_zero_l; [| exact N3].
    repeat first [ assumption | apply add_zeros | apply mul_zero
                 | apply is_zero_finite ].
  - intros V0 V1 V2. cbn [of_int fadd fmul binary64].
    rewrite !(mul_one c0 V0), !(mul_one c1 V1), (mul_one c2 V2).
    eexists. split; [reflexivity |]. split; [reflexivity |].
    apply SFeqb_refl.
Qed.

(** C9 (as amended).  For every [t] that is not NaN the condition
    [t >= 0.0 || t <= 1.0] is true, whatever the value of [t], and
    [polynomial] does not abort on it. *)
Theorem t_check_passes (t : double) (c : list double) :
  t <> S754_nan -> (4 <= length c)%nat ->
  t_check t = true /\ exists v, polynomial c t = Ok v.
Proof.
  intros Ht Hc. pose proof (t_check_not_nan t Ht) as Hchk.
  split; [exact Hchk |]. now apply polynomial_Ok.
Qed.

(** ** Concrete runs in binary64 *)

Lemma create_spline_segments_witness :
  exists s, create_spline (create_curve (F := double) 9) = Ok s /\
    num_segs s = 9 - DEGREE /\
    (forall i, 0 <= i < num_segs s ->
       coeff s !! Z.to_nat i = Some ((DEGREE + 1) * i) /\
       length (row s i) = Z.to_nat (DEGREE + 1)) /\
    Z.of_nat (length (cells s)) = num_segs s * (DEGREE + 1) /\
    slen s = num_segs s * (DEGREE + 1).
Proof.
  apply (create_spline_segments (create_curve (F := double) 9)).
  - vm_compute. discriminate.
  - vm_compute. discriminate.
Defined.

(** C4, as stated, fails on a long curve: the coefficient count
    overflows the [int] it is computed in, the block has 4 cells and the
    [len] field holds 4 where the claim has [858993460 * 5]. *)
Lemma create_spline_len_wraps :
  let cv := create_curve (F := double) 858993464 in
  DEGREE + 1 <= len cv /\
  exists s, create_spline cv = Ok s /\
    num_segs s = len cv - DEGREE /\
    slen s = 4 /\ length (cells s) = 4%nat /\
    slen s <> num_segs s * (DEGREE + 1).
Proof.
  intros cv. split; [cbn [len cv create_curve]; vm_compute; discriminate |].
  rewrite create_spline_eq. eexists. split; [reflexivity |].
  cbn [num_segs slen cells len cv create_curve].
  split; [reflexivity |]. split; [reflexivity |]. split; [reflexivity |].
  vm_compute. discriminate.
Qed.

Lemma create_spline_num_segs_witness :
  exists s, create_spline (create_curve (F := double) 9) = Ok s /\
            num_segs s = 9 - DEGREE.
Proof.
  apply (create_spline_num_segs (create_curve (F := double) 9)).
  vm_compute. split; discriminate.
Defined.

(** C5, as stated, fails: a curve of 9 samples gives 5 segments, not
    [9 - (DEGREE + 1) = 4]. *)
Lemma create_spline_not_len_minus_width :
  let cv := create_curve (F := double) 9 in
  DEGREE + 1 <= len cv /\
  exists s, create_spline cv = Ok s /\
    num_segs s = 5 /\
    num_segs s <> len cv - (DEGREE + 1).
Proof.
  intros cv. split; [vm_compute; discriminate |].
  eexists. split; [vm_compute; reflexivity |].
  split; [reflexivity | vm_compute; discriminate].
Qed.

Lemma gmatrix_sliding_window_witness :
  exists G',
    gmatrix (fresh_spline (ramp 9)) (ramp 9) = Ok G' /\
    num_segs G' = len (ramp 9) - DEGREE /\
    (forall i, 0 <= i < num_segs G' ->
       row G' i = take (Z.to_nat (DEGREE + 1)) (drop (Z.to_nat i) (x (ramp 9))) /\
       length (row G' i) = Z.to_nat (DEGREE + 1)).
Proof.
  apply (gmatrix_sliding_window (fresh_spline (ramp 9)) (ramp 9)).
  - split; [split; vm_compute; discriminate | vm_compute; reflexivity].
  - vm_compute; discriminate.
  - vm_compute; discriminate.
  - left. vm_compute; reflexivity.
Defined.

(** C3, as stated, fails on the first length past the bound: for
    429496734 samples the coefficient count [5 * 429496730] overflows
    the [int] it is computed in, [create_spline] gets no block, and
    [gmatrix] faults on the first cell it writes. *)
Lemma gmatrix_no_block_past_int :
  let cv := create_curve (F := double) 429496734 in
  wf_curve cv /\ DEGREE + 1 <= len cv /\
  (DEGREE + 1) * (len cv - DEGREE) = INT_MAX + 3 /\
  exists G, create_spline cv = Ok G /\
    num_segs G = len cv - DEGREE /\ cells G = [] /\
    gmatrix G cv = Fault.
Proof.
  intros cv.
  assert (Hlen : len cv = 429496734) by reflexivity.
  split.
  { unfold wf_curve, UINT_MAX. rewrite Hlen. unfold cv, create_curve, calloc.
    cbn [x]. rewrite length_replicate. lia. }
  rewrite create_spline_eq, !Hlen.
  split; [vm_compute; discriminate |].
  split; [vm_compute; reflexivity |].
  eexists. split; [reflexivity |]. cbn [num_segs cells].
  split; [vm_compute; reflexivity |].
  split; [reflexivity |].
  apply (gmatrix_no_block _ cv cv); [reflexivity | | reflexivity].
  rewrite Hlen. vm_compute. discriminate.
Qed.

(** A spline of 5 rows whose back-reference is set to a curve of 6
    samples, filled from a curve of 9: 2 rows are written, 3 are left. *)
Lemma gmatrix_rows_from_backref_witness :
  let G := with_curve (fresh_spline (ramp 9)) (ramp 6) in
  exists G',
    gmatrix G (ramp 9) = Ok G' /\
    (forall i, 0 <= i < len (ramp 6) - DEGREE ->
       row G' i = take (Z.to_nat (DEGREE + 1)) (drop (Z.to_nat i) (x (ramp 9)))) /\
    (forall i, 0 <= i -> len (ramp 6) - DEGREE <= i < num_segs G ->
       row G' i = row G i) /\
    num_segs G' = num_segs G /\
    (forall n, gmatrix G {| x := x (ramp 9); len := n |} = Ok G').
Proof.
  apply (gmatrix_rows_from_backref (with_curve (fresh_spline (ramp 9)) (ramp 6))
           (ramp 6) (ramp 9)).
  - solve_wf_spline.
  - vm_compute; reflexivity.
  - vm_compute; discriminate.
  - vm_compute; discriminate.
  - vm_compute; discriminate.
Defined.

Lemma segment_matvec_witness :
  let S : list double := of_int <$> [7; 7; 7; 7; 7] in
  let sp := fresh_spline (ramp 9) in
  let G := geometry (ramp 9) in
  Mcr = M (F := double) /\
  segment S (x (ramp 5)) = Ok (matvec M (x (ramp 5))) /\
  exists sp',
    coefficients sp G = Ok sp' /\
    num_segs sp' = num_segs sp /\
    (forall i, 0 <= i < num_segs sp -> row sp' i = matvec M (row G i)).
Proof.
  apply (segment_matvec (of_int <$> [7; 7; 7; 7; 7]) (x (ramp 5))
           (fresh_spline (ramp 9)) (geometry (ramp 9))).
  - reflexivity.
  - reflexivity.
  - solve_wf_spline.
  - solve_wf_spline.
  - vm_compute; discriminate.
Defined.

Lemma evaluate_samples_witness :
  let sp := ramp_spline 9 in
  let sol := create_curve (F := double) 10 in
  exists sol',
    evaluate sp sol = Ok sol' /\
    2 = len sol / num_segs sp /\
    len sol' = len sol /\ length (x sol') = length (x sol) /\
    (forall i j, 0 <= i < num_segs sp -> 0 <= j < 2 ->
       exists v,
         polynomial (row sp i) (fdiv (of_int j) (of_int 2)) = Ok v /\
         x sol' !! Z.to_nat (i * 2 + j) = Some v) /\
    (forall n, (Z.to_nat (len sol) <= n)%nat -> x sol' !! n = x sol !! n).
Proof.
  apply (evaluate_samples (ramp_spline 9) (create_curve 10) 2).
  - solve_wf_spline.
  - vm_compute; discriminate.
  - vm_compute; discriminate.
  - vm_compute; reflexivity.
  - vm_compute; discriminate.
  - vm_compute; discriminate.
Defined.

(** C2, as stated, fails on a solution of 2^31 samples for a spline of
    one segment: [res] does not fit an [int], no sample is written, and
    [solution.x[0]] stays 0.0 where the claim has
    [polynomial (coeff[0], 0 / res) = 4.0]. *)
Lemma evaluate_long_solution :
  let sp := ramp_spline 5 in
  let sol := create_curve (F := double) 2147483648 in
  wf_spline sp /\ num_segs sp = 1 /\ wf_curve sol /\
  len sol = 2147483648 * num_segs sp /\
  evaluate sp sol = Ok sol /\
  x sol !! 0%nat = Some (of_int 0) /\
  polynomial (row sp 0) (fdiv (of_int 0) (of_int 2147483648)) = Ok (of_int 4) /\
  SFeqb (of_int 0) (of_int 4) = false.
Proof.
  intros sp sol.
  split; [solve_wf_spline |]. split; [reflexivity |].
  split.
  { unfold wf_curve, sol, create_curve, calloc. cbn [len x].
    rewrite length_replicate. unfold UINT_MAX. lia. }
  split; [reflexivity |]. split.
  { apply evaluate_no_rounds; [reflexivity |].
    unfold sol, create_curve. cbn [len]. unfold INT_MAX, UINT_MAX. lia. }
  split.
  { unfold sol, create_curve, calloc. cbn [x].
    apply lookup_replicate_2. lia. }
  split; vm_compute; reflexivity.
Qed.

Lemma polynomial_value_witness :
  let c0 : double := of_int 24 in
  let c1 : double := of_int 0 in
  let c2 : double := of_int 0 in
  let c3 : double := of_int 4 in
  let rest : list double := [of_int 0] in
  let t : double := fdiv (of_int 1) (of_int 2) in
  polynomial (c0 :: c1 :: c2 :: c3 :: rest) t =
    Ok (fadd (fadd (fadd (fmul (fmul (fmul c0 t) t) t)
                         (fmul (fmul c1 t) t))
                   (fmul c2 t))
             c3) /\
  polynomial (c0 :: c1 :: c2 :: c3 :: rest) t = polynomial [c0; c1; c2; c3] t /\
  (finite c0 = true -> finite c1 = true -> finite c2 = true -> c3 <> S754_nan ->
   exists v, polynomial (c0 :: c1 :: c2 :: c3 :: rest) (of_int 0) = Ok v /\
             SFeqb v c3 = true) /\
  (valid c0 = true -> valid c1 = true -> valid c2 = true ->
   exists v, polynomial (c0 :: c1 :: c2 :: c3 :: rest) (of_int 1) = Ok v /\
             v = fadd (fadd (fadd c0 c1) c2) c3 /\
             (v <> S754_nan -> SFeqb v (fadd (fadd (fadd c0 c1) c2) c3) = true)).
Proof.
  apply (polynomial_value (of_int 24) (of_int 0) (of_int 0) (of_int 4)
           [of_int 0] (fdiv (of_int 1) (of_int 2))).
  vm_compute; discriminate.
Defined.

(** C6, as stated, fails on a row with an infinite coefficient:
    [polynomial (coeff, 0)] is NaN there and not [coeff[3] = 0.0]; and
    on [t = NaN] [polynomial] returns no value at all. *)
Lemma polynomial_at_zero_infinite_coeff :
  let coeff : list double :=
    [S754_infinity false; of_int 0; of_int 0; of_int 0; of_int 0] in
  polynomial coeff (of_int 0) = Ok S754_nan /\
  SFeqb S754_nan (of_int 0) = false /\
  polynomial coeff S754_nan = Abort.
Proof. repeat split; vm_compute; reflexivity. Qed.

Lemma segment_linear_integers_witness :
  let S : list double := calloc 5 in
  let G1 := [70368744177664; 1; 0; 0; 0] in
  let G2 := [1; 0; 0; 0; 0] in
  exists r1 r2 rk rs,
    segment S (of_int <$> G1) = Ok r1 /\
    segment S (of_int <$> G2) = Ok r2 /\
    segment S (scale (of_int 3) (of_int <$> G1)) = Ok rk /\
    row_eqb rk (scale (of_int 3) r1) = true /\
    segment S (add_rows (of_int <$> G1) (of_int <$> G2)) = Ok rs /\
    row_eqb rs (add_rows r1 r2) = true.
Proof.
  intros S G1 G2.
  apply (segment_linear_integers 3 70368744177664 3 S G1 G2);
    try reflexivity; repeat (constructor; [by_evaluation |]); constructor.
Defined.

(** Where nothing rounds the two sides can still differ in the sign of
    a zero, which [==] does not see: with [k = -1] and
    [G = (0, 1, 0, 0, 0)] the last coefficient is [+0.0] from [k * G]
    and [-0.0] as [k] times the one of [G]. *)
Lemma segment_scale_signed_zero :
  let S : list double := calloc 5 in
  let k : double := of_int (-1) in
  let G : list double := of_int <$> [0; 1; 0; 0; 0] in
  exists r rk,
    segment S G = Ok r /\ segment S (scale k G) = Ok rk /\
    rk !! 4%nat = Some (S754_zero false) /\
    scale k r !! 4%nat = Some (S754_zero true) /\
    row_eqb rk (scale k r) = true.
Proof.
  do 2 eexists. split; [vm_compute; reflexivity |].
  split; [vm_compute; reflexivity |]. repeat split; vm_compute; reflexivity.
Qed.

(** C8, as stated, fails in binary64, where sums round: with
    [k = 3] and [G = (2^53, 1, 0, 0, 0)] the third coefficient is
    [18 * 2^53 - 32] from [k * G] and [18 * 2^53 - 64] as [k] times the
    one of [G]; with [G1 = (2^53, 0, 0, 0, 0)] and
    [G2 = (1, 0, 0, 0, 0)], [G1 + G2] rounds to [G1], and the third
    coefficient is [6 * 2^53] from it and [6 * 2^53 + 8] as the sum. *)
Lemma segment_not_linear_binary64 :
  let S : list double := calloc 5 in
  let k : double := of_int 3 in
  let G : list double := of_int <$> [9007199254740992; 1; 0; 0; 0] in
  let G1 : list double := of_int <$> [9007199254740992; 0; 0; 0; 0] in
  let G2 : list double := of_int <$> [1; 0; 0; 0; 0] in
  (exists r rk,
     segment S G = Ok r /\ segment S (scale k G) = Ok rk /\
     row_eqb rk (scale k r) = false /\
     rk !! 2%nat = Some (of_int (18 * 9007199254740992 - 32)) /\
     scale k r !! 2%nat = Some (of_int (18 * 9007199254740992 - 64))) /\
  (exists r1 r2 r12,
     segment S G1 = Ok r1 /\ segment S G2 = Ok r2 /\
     segment S (add_rows G1 G2) = Ok r12 /\
     row_eqb r12 (add_rows r1 r2) = false /\
     r12 !! 2%nat = Some (of_int (6 * 9007199254740992)) /\
     add_rows r1 r2 !! 2%nat = Some (of_int (6 * 9007199254740992 + 8))).
Proof.
  split.
  - do 2 eexists. split; [vm_compute; reflexivity |].
    split; [vm_compute; reflexivity |]. repeat split; vm_compute; reflexivity.
  - do 3 eexists. split; [vm_compute; reflexivity |].
    split; [vm_compute; reflexivity |]. split; [vm_compute; reflexivity |].
    repeat split; vm_compute; reflexivity.
Qed.

Lemma t_check_passes_witness :
  let t : double := of_int 2 in
  let c : list double := calloc 5 in
  t_check t = true /\ exists v, polynomial c t = Ok v.
Proof.
  apply (t_check_passes (of_int 2) (calloc 5)).
  - vm_compute; discriminate.
  - vm_compute; lia.
Defined.

(** C9, as stated, fails on NaN: both comparisons are false, the
    assertion fails and [polynomial] aborts. *)
Lemma t_check_nan :
  t_check (S754_nan : double) = false /\
  polynomial (calloc 5) (S754_nan : double) = Abort.
Proof. split; vm_compute; reflexivity. Qed.

(** C7 fails on the code.  For the ramp 0, 1, ..., 8 [spline] gives
    segment [i] the coefficients [8 i + 24, 0, 0, 4, i], and [evaluate]
    at two samples a segment gives 4, 7, 4, 8, 4, 9, 4, 10, 4, 11:
    [4] at [t = 0] and [i + 7] at [t = 1/2], not the ramp's values; at
    four samples a segment, segment 0 gives 4, 4.375, 7, 14.125, which
    are not on a line. *)
Lemma ramp_not_reproduced :
  exists sp sol sol4,
    spline (ramp 9) (fresh_spline (ramp 9)) = Ok sp /\
    cells sp = of_int <$> [24; 0; 0; 4; 0;  32; 0; 0; 4; 1;  40; 0; 0; 4; 2;
                           48; 0; 0; 4; 3;  56; 0; 0; 4; 4] /\
    evaluate sp (create_curve 10) = Ok sol /\
    x sol = of_int <$> [4; 7; 4; 8; 4; 9; 4; 10; 4; 11] /\
    evaluate sp (create_curve 20) = Ok sol4 /\
    take 4 (x sol4) = [of_int 4; fdiv (of_int 35) (of_int 8);
                       of_int 7; fdiv (of_int 113) (of_int 8)].
Proof.
  do 3 eexists. split; [vm_compute; reflexivity |].
  split; [vm_compute; reflexivity |].
  split; [vm_compute; reflexivity |].
  split; [vm_compute; reflexivity |].
  split; vm_compute; reflexivity.
Qed.

(** * Further properties *)

(** ** Loops that stop, loops with equal bodies *)

(** A loop whose rounds return up to round [k], which faults. *)
Lemma for_loop_fault {St} (P : Z -> St -> Prop) (body : Z -> St -> outcome St)
    (k n : nat) (i : Z) (s : St) :
  (k < n)%nat -> P i s ->
  (forall j t, i <= j < i + Z.of_nat k -> P j t ->
               exists t', body j t = Ok t' /\ P (j + 1) t') ->
  (forall t, P (i + Z.of_nat k) t -> body (i + Z.of_nat k) t = Fault) ->
  for_loop n i body s = Fault.
Proof.
  revert n i s. induction k as [| k IH]; intros n i s Hk Hs Hok Hbad.
  - destruct n as [| n]; [lia |]. simpl.
    rewrite <- (Z.add_0_r i) at 1. change 0 with (Z.of_nat 0).
    now rewrite Hbad by (now rewrite Z.add_0_r).
  - destruct n as [| n]; [lia |]. simpl.
    destruct (Hok i s) as (t & -> & Ht); [lia | assumption |]. cbn [bind].
    apply (IH n (i + 1) t); [lia | assumption | |].
    + intros j u Hj. apply Hok. lia.
    + intros u Hu. replace (i + 1 + Z.of_nat k) with (i + Z.of_nat (S k)) in * by lia.
      now apply Hbad.
Qed.

Lemma for_int_fault {St} (P : Z -> St -> Prop) (body : Z -> St -> outcome St)
    (k hi : Z) (s : St) :
  0 <= k < hi -> P 0 s ->
  (forall j t, 0 <= j < k -> P j t -> exists t', body j t = Ok t' /\ P (j + 1) t') ->
  (forall t, P k t -> body k t = Fault) ->
  for_int hi body s = Fault.
Proof.
  intros Hk Hs Hok Hbad. unfold for_int.
  apply (for_loop_fault P body (Z.to_nat k)); [lia | assumption | |].
  - intros j t Hj. apply Hok. lia.
  - intros t. rewrite Z.add_0_l, Z2Nat.id by lia. apply Hbad.
Qed.

Lemma for_uint_fault {St} (P : Z -> St -> Prop) (body : Z -> St -> outcome St)
    (k hi : Z) (s : St) :
  0 <= k < hi -> k <= INT_MAX -> P 0 s ->
  (forall j t, 0 <= j < k -> P j t -> exists t', body j t = Ok t' /\ P (j + 1) t') ->
  (forall t, P k t -> body k t = Fault) ->
  for_uint hi body s = Fault.
Proof.
  intros Hk Hmax Hs Hok Hbad. unfold for_uint.
  apply (for_loop_fault P (fun i => body (to_int i)) (Z.to_nat k));
    [lia | assumption | |].
  - intros j t Hj HP. rewrite to_int_small by (unfold INT_MAX in *; lia).
    apply Hok; [lia | assumption].
  - intros t. rewrite Z.add_0_l, Z2Nat.id by lia.
    rewrite to_int_small by (unfold INT_MAX in *; lia). apply Hbad.
Qed.

(** Two loops whose bodies agree on the rounds they make, on every state. *)
Lemma for_loop_ext {St} (body1 body2 : Z -> St -> outcome St)
    (n : nat) (i : Z) (s : St) :
  (forall j t, i <= j < i + Z.of_nat n -> body1 j t = body2 j t) ->
  for_loop n i body1 s = for_loop n i body2 s.
Proof.
  revert i s. induction n as [| n IH]; intros i s Hb; [reflexivity |].
  simpl. rewrite Hb by lia. destruct (body2 i s) as [t | |]; try reflexivity.
  cbn [bind]. apply IH. intros j u Hj. apply Hb. lia.
Qed.

Section MoreFacts.
Context {F : Type} `{Double F}.

(** ** Shapes *)

Lemma with_cells_same (s : spline_t F) : with_cells s (cells s) = s.
Proof. now destruct s. Qed.

Lemma wf_with_cells (s : spline_t F) (c : list F) :
  wf_spline s -> length c = length (cells s) -> wf_spline (with_cells s c).
Proof.
  intros (H1 & H2 & H3 & H4 & H5) Hc. unfold wf_spline, with_cells.
  cbn [num_segs slen coeff cells]. rewrite Hc. auto.
Qed.

(** A block of [n] rows is known by its cells [5 i + j]. *)
Lemma cells_determined (c1 c2 : list F) (n : Z) :
  Z.of_nat (length c1) = 5 * n -> Z.of_nat (length c2) = 5 * n ->
  (forall i j, 0 <= i < n -> 0 <= j <= 4 ->
               c1 !! Z.to_nat (5 * i + j) = c2 !! Z.to_nat (5 * i + j)) ->
  c1 = c2.
Proof.
  intros H1 H2 Hc. apply list_eq. intros k.
  destruct (decide (k < length c1)%nat) as [Hk | Hk].
  - specialize (Hc (Z.of_nat k / 5) (Z.of_nat k mod 5)).
    pose proof (Z.div_mod (Z.of_nat k) 5 ltac:(lia)) as Hdm.
    pose proof (Z.mod_pos_bound (Z.of_nat k) 5 ltac:(lia)) as Hm.
    assert (Hd : 0 <= Z.of_nat k / 5 < n).
    { split; [apply Z.div_pos; lia | apply Z.div_lt_upper_bound; lia]. }
    replace (Z.to_nat (5 * (Z.of_nat k / 5) + Z.of_nat k mod 5)) with k in Hc by lia.
    apply Hc; lia.
  - rewrite !lookup_ge_None_2 by lia. reflexivity.
Qed.

Lemma rows_determined (c1 c2 : list F) (n : Z) :
  Z.of_nat (length c1) = 5 * n -> Z.of_nat (length c2) = 5 * n ->
  (forall i, 0 <= i < n ->
     take 5 (drop (Z.to_nat (5 * i)) c1) = take 5 (drop (Z.to_nat (5 * i)) c2)) ->
  c1 = c2.
Proof.
  intros H1 H2 Hr. apply (cells_determined c1 c2 n H1 H2). intros i j Hi Hj.
  specialize (Hr i Hi).
  apply (f_equal (fun l => l !! Z.to_nat j)) in Hr.
  rewrite !lookup_take_lt, !lookup_drop in Hr by lia.
  now replace (Z.to_nat (5 * i + j)) with (Z.to_nat (5 * i) + Z.to_nat j)%nat by lia.
Qed.

(** ** create_spline at the edges *)

Lemma create_spline_short (cv : curve_t F) :
  0 <= len cv < DEGREE ->
  create_spline cv =
  Ok {| curve := Some cv; coeff := []; cells := [];
        slen := 4294967296 + (DEGREE + 1) * (len cv - DEGREE);
        num_segs := 4294967296 + len cv - DEGREE |}.
Proof.
  unfold DEGREE. intros Hlen. rewrite create_spline_eq. unfold DEGREE.
  assert (Hl : len cv = 0 \/ len cv = 1 \/ len cv = 2 \/ len cv = 3) by lia.
  destruct Hl as [-> | [-> | [-> | ->]]]; reflexivity.
Qed.

Lemma load_Fault {A} (a : list A) (i : Z) :
  Z.of_nat (length a) <= i -> load a i = Fault.
Proof.
  intros Hi. unfold load. destruct (0 <=? i); [| reflexivity].
  now rewrite lookup_ge_None_2 by lia.
Qed.

(** ** gmatrix *)

(** [gmatrix] writes every cell of the block: cell [k] becomes sample
    [k / 5 + k mod 5] of the curve argument. *)
Lemma gmatrix_cells (G : spline_t F) (gc cv : curve_t F) :
  wf_spline G -> curve G = Some gc -> num_segs G = len gc - DEGREE ->
  len gc <= Z.of_nat (length (x cv)) ->
  exists c,
    gmatrix G cv = Ok (with_cells G c) /\
    length c = length (cells G) /\
    (forall k, 0 <= k < (DEGREE + 1) * num_segs G ->
       c !! Z.to_nat k = x cv !! Z.to_nat (k / 5 + k mod 5)).
Proof.
  intros Hwf Hcurve Hsegs Hx.
  destruct (gmatrix_spec G gc cv Hwf Hcurve Hsegs Hx) as (c & Hrun & Hlen & Hc).
  exists c. split; [exact Hrun |]. split; [exact Hlen |].
  unfold DEGREE in *. intros k Hk.
  pose proof (Z.div_mod k 5 ltac:(lia)) as Hdm.
  pose proof (Z.mod_pos_bound k 5 ltac:(lia)) as Hm.
  assert (Hd : 0 <= k / 5 < num_segs G).
  { split; [apply Z.div_pos; lia | apply Z.div_lt_upper_bound; lia]. }
  rewrite <- (Hc (k / 5) (k mod 5)) by lia. f_equal. lia.
Qed.

(** A curve argument with fewer samples than the curve [G] refers back
    to: a read goes past its last sample. *)
Lemma gmatrix_short (G : spline_t F) (gc cv : curve_t F) :
  wf_spline G -> curve G = Some gc -> num_segs G = len gc - DEGREE ->
  1 <= num_segs G -> Z.of_nat (length (x cv)) < len gc ->
  gmatrix G cv = Fault.
Proof.
  intros Hwf Hcurve Hsegs Hrows Hx.
  pose proof Hwf as (Hn0 & Hmax & _ & _ & Hcells).
  unfold gmatrix. rewrite Hcurve. cbn [bind].
  assert (Hn : to_int (to_uint (len gc - DEGREE)) = num_segs G).
  { rewrite <- Hsegs. unfold DEGREE, INT_MAX in *.
    rewrite to_uint_small by (unfold UINT_MAX; lia).
    apply to_int_small. unfold INT_MAX. lia. }
  rewrite Hn. unfold DEGREE, INT_MAX in *. change (to_int (4 + 1)) with 5.
  set (L := Z.of_nat (length (x cv))) in *.
  set (i0 := Z.max 0 (L - 4)).
  rewrite (for_int_fault
    (fun i (st : Z * list F) => fst st = i /\ length (snd st) = length (cells G))
    _ i0); [reflexivity | lia | now split | |].
  - intros i [k c] Hi (Hk & Hlen). cbn [fst snd] in *. subst k.
    destruct (gmatrix_row G cv i c Hwf) as (c' & Hrun & Hlen' & _);
      [lia | unfold DEGREE; lia | exact Hlen |].
    change (to_int (DEGREE + 1)) with 5 in Hrun. rewrite Hrun. cbn [bind].
    eexists. split; [reflexivity |]. cbn [fst snd].
    split; [apply to_int_small; unfold INT_MAX; lia | congruence].
  - intros [k c] (Hk & Hlen). cbn [fst snd] in *. subst k.
    rewrite (for_int_fault (fun _ c' => length c' = length (cells G)) _ (L - i0));
      [reflexivity | lia | exact Hlen | |].
    + intros j t Hj Ht.
      rewrite to_int_small by (unfold INT_MAX; lia).
      destruct (lookup_lt_is_Some_2 (x cv) (Z.to_nat (j + i0))) as [v Hv]; [lia |].
      rewrite (load_Ok _ _ v) by (lia || assumption). cbn [bind].
      rewrite (load_Ok _ _ (5 * i0))
        by first [lia | apply (wf_coeff_lookup G i0 Hwf); lia].
      cbn [bind]. rewrite store_Ok by lia.
      eexists. split; [reflexivity |]. now rewrite length_insert.
    + intros t Ht. rewrite to_int_small by (unfold INT_MAX; lia).
      rewrite load_Fault by (fold L; lia). reflexivity.
Qed.

(** ** segment, coefficients *)

(** One round of [coefficients]. *)
Lemma coefficients_round (sp G : spline_t F) (i : Z) (c : list F) :
  wf_spline sp -> wf_spline G ->
  0 <= i < num_segs sp -> i < num_segs G ->
  length c = length (cells sp) ->
  exists c',
    (do ps <- load (coeff sp) i;
     do pg <- load (coeff G) i;
     do S <- view c ps;
     do Gi <- view (cells G) pg;
     do S' <- segment S Gi;
     Ok (take (Z.to_nat ps) c ++ S')) = Ok c' /\
    length c' = length c.
Proof.
  intros Hwf HwfG Hi HiG Hlen.
  pose proof Hwf as (Hn0 & Hmax & _ & _ & Hcells).
  pose proof HwfG as (_ & _ & _ & _ & HcellsG).
  unfold DEGREE, INT_MAX in *.
  rewrite (load_Ok _ _ (5 * i)) by (lia || now apply wf_coeff_lookup).
  cbn [bind].
  rewrite (load_Ok _ _ (5 * i))
    by first [lia | apply wf_coeff_lookup; [assumption | lia]].
  cbn [bind]. rewrite !view_Ok by lia. cbn [bind].
  rewrite segment_view by (rewrite length_drop; lia). cbn [bind].
  eexists. split; [reflexivity |].
  rewrite !length_app, matvec_length, length_take, !length_drop.
  change (length Mcr) with 5%nat. lia.
Qed.

Lemma coefficients_short (sp G : spline_t F) :
  wf_spline sp -> wf_spline G -> num_segs G < num_segs sp ->
  coefficients sp G = Fault.
Proof.
  intros Hwf HwfG Hlt.
  pose proof Hwf as (_ & Hmax & _ & _ & _).
  pose proof HwfG as (Hn0 & _ & _ & HcG & _).
  unfold DEGREE, INT_MAX in *. unfold coefficients.
  rewrite (for_uint_fault (fun _ c => length c = length (cells sp)) _ (num_segs G));
    [reflexivity | lia | unfold INT_MAX; lia | reflexivity | |].
  - intros i c Hi Hlen.
    destruct (coefficients_round sp G i c Hwf HwfG) as (c' & -> & Hlen'); try lia.
    exists c'. split; [reflexivity | congruence].
  - intros c Hlen.
    rewrite (load_Ok _ _ (5 * num_segs G))
      by first [lia | apply (wf_coeff_lookup sp _ Hwf); lia].
    cbn [bind]. rewrite load_Fault; [reflexivity |].
    rewrite HcG, length_fmap, length_seqZ. lia.
Qed.

(** ** spline, evaluate *)

(** [spline] in terms of the block it leaves. *)
Lemma spline_spec (cv : curve_t F) (sp : spline_t F) :
  wf_curve cv -> DEGREE + 1 <= len cv ->
  (DEGREE + 1) * (len cv - DEGREE) <= INT_MAX ->
  wf_spline sp -> num_segs sp <= len cv - DEGREE ->
  exists c,
    spline cv sp = Ok (with_cells sp c) /\
    length c = length (cells sp) /\
    (forall i, 0 <= i < num_segs sp ->
       take 5 (drop (Z.to_nat (5 * i)) c)
       = matvec Mcr (take 5 (drop (Z.to_nat i) (x cv)))).
Proof.
  intros [_ Hx] Hlo Hhi Hwf Hle. unfold spline.
  assert (Hlo' : DEGREE <= len cv) by lia.
  destruct (create_spline_wf cv Hlo' Hhi) as (G & -> & HwfG & Hcurve & Hn & _).
  cbn [bind].
  destruct (gmatrix_rows G cv cv HwfG Hcurve Hn) as
    (G' & -> & _ & Hco & Hsl & Hns & Hce & Hrows); [lia |].
  cbn [bind].
  assert (HwfG' : wf_spline G').
  { destruct HwfG as (H1 & H2 & H3 & H4 & H5). unfold wf_spline.
    rewrite Hco, Hsl, Hns, Hce. auto. }
  destruct (coefficients_spec sp G' Hwf HwfG') as (c & -> & Hlen & Hc); [lia |].
  cbn [bind]. rewrite (free_spline_call_Ok G' HwfG') by lia. cbn [bind].
  exists c. split; [reflexivity |]. split; [exact Hlen |].
  intros i Hi. rewrite Hc by exact Hi. rewrite Hrows by lia. reflexivity.
Qed.

(** The inner loop of [evaluate] reads four cells of row [i]. *)
Lemma evaluate_round_ext (sp1 sp2 : spline_t F) (i res k : Z) (xs : list F) :
  wf_spline sp1 -> wf_spline sp2 -> num_segs sp1 = num_segs sp2 ->
  0 <= i < num_segs sp1 ->
  take 4 (row sp1 i) = take 4 (row sp2 i) ->
  for_int res
    (fun j xs =>
       do p <- load (coeff sp1) i;
       do ci <- view (cells sp1) p;
       do v <- polynomial ci (fdiv (of_int j) (of_int res));
       store xs (to_int (j + k)) v) xs
  = for_int res
    (fun j xs =>
       do p <- load (coeff sp2) i;
       do ci <- view (cells sp2) p;
       do v <- polynomial ci (fdiv (of_int j) (of_int res));
       store xs (to_int (j + k)) v) xs.
Proof.
  intros Hwf1 Hwf2 Hn Hi Hrow. unfold for_int. apply for_loop_ext.
  intros j t _.
  pose proof Hwf1 as (_ & _ & _ & _ & Hc1).
  pose proof Hwf2 as (_ & _ & _ & _ & Hc2).
  unfold DEGREE in *.
  rewrite (load_Ok (coeff sp1) _ (5 * i)) by (lia || now apply wf_coeff_lookup).
  rewrite (load_Ok (coeff sp2) _ (5 * i))
    by first [lia | apply wf_coeff_lookup; [assumption | lia]].
  cbn [bind]. rewrite !view_Ok by lia. cbn [bind].
  rewrite <- (polynomial_take 4 (drop _ (cells sp1))) by lia.
  rewrite <- (polynomial_take 4 (drop _ (cells sp2))) by lia.
  rewrite !wf_row in Hrow by (assumption || lia).
  rewrite !take_take in Hrow. change (4 `min` 5)%nat with 4%nat in Hrow.
  now rewrite Hrow.
Qed.

End MoreFacts.

Section MoreProperties.
Context {F : Type} `{Double F}.

(** X1.  [create_spline] does not reject a curve of fewer than [DEGREE]
    samples: the segment count wraps, and it returns a spline that
    claims [2^32 + len - DEGREE] segments and has no row and no cell.
    [gmatrix] on it makes no round, [coefficients] faults on its first
    row, and [evaluate] aborts on any solution shorter than the claimed
    count. *)
Theorem create_spline_short_curve (cv cv' sol : curve_t F) (G : spline_t F) :
  0 <= len cv < DEGREE ->
  exists s, create_spline cv = Ok s /\
    num_segs s = 4294967296 + len cv - DEGREE /\
    coeff s = [] /\ cells s = [] /\
    gmatrix s cv' = Ok s /\
    coefficients s G = Fault /\
    (len sol < num_segs s -> evaluate s sol = Abort).
Proof.
  intros Hlen. rewrite create_spline_short by exact Hlen.
  eexists. split; [reflexivity |]. cbn [num_segs coeff cells].
  do 3 (split; [reflexivity |]). unfold DEGREE in *. split; [| split].
  - unfold gmatrix. cbn [curve bind].
    assert (Hl : len cv = 0 \/ len cv = 1 \/ len cv = 2 \/ len cv = 3) by lia.
    destruct Hl as [-> | [-> | [-> | ->]]]; reflexivity.
  - unfold coefficients. cbn [num_segs coeff cells].
    rewrite (for_uint_fault (fun _ _ => True) _ 0);
      [reflexivity | lia | unfold INT_MAX; lia | exact I
      | intros; lia | intros; reflexivity].
  - intros Hsol. unfold evaluate. cbn [num_segs].
    destruct (Z.leb_spec (4294967296 + len cv - 4) (len sol)); [lia | reflexivity].
Qed.

(** X2.  For a curve of at least [DEGREE] samples whose coefficient
    count fits an [int], [create_spline] returns a well-formed spline
    that refers back to the curve and whose every coefficient is +0.0;
    for exactly [DEGREE] samples it has no segment. *)
Theorem create_spline_initial (cv : curve_t F) :
  DEGREE <= len cv -> (DEGREE + 1) * (len cv - DEGREE) <= INT_MAX ->
  exists s, create_spline cv = Ok s /\
    wf_spline s /\ curve s = Some cv /\
    (forall k, (k < length (cells s))%nat -> cells s !! k = Some (of_int 0)) /\
    (len cv = DEGREE -> num_segs s = 0 /\ cells s = []).
Proof.
  intros Hlo Hhi.
  destruct (create_spline_wf cv Hlo Hhi) as (s & Hs & Hwf & Hc & Hn & Hz).
  exists s. split; [exact Hs |]. split; [exact Hwf |]. split; [exact Hc |].
  split.
  - intros k Hk. rewrite Hz in *. unfold calloc in *.
    rewrite length_replicate in Hk. now apply lookup_replicate_2.
  - intros Hlen. split; [lia |]. rewrite Hz, Hlen. reflexivity.
Qed.

(** X3.  The first statement of [free_spline] reads [coeff[0]]: on a
    well-formed spline of at least one segment the call returns, with
    every field reset; on a well-formed spline of no segment (a curve of
    exactly [DEGREE] samples) the read is outside the row-pointer
    array. *)
Theorem free_spline_call_rows (s : spline_t F) :
  wf_spline s ->
  (1 <= num_segs s -> free_spline_call s = Ok (free_spline s)) /\
  (num_segs s = 0 -> free_spline_call s = Fault).
Proof.
  intros Hwf. split; intros Hn; unfold free_spline_call.
  - rewrite (load_Ok _ _ ((DEGREE + 1) * 0)); [reflexivity | lia |].
    apply (wf_coeff_lookup s 0 Hwf). lia.
  - destruct Hwf as (_ & _ & _ & Hc & _). rewrite Hc, Hn. reflexivity.
Qed.

(** X4.  After [free_spline] the spline has no curve, no row and no
    segment: a second [free_spline] and [gmatrix] fault (NULL is
    dereferenced), [coefficients] into it makes no round and returns it
    as it is, and [evaluate] does not return. *)
Theorem use_after_free_spline (s G : spline_t F) (cv sol : curve_t F) :
  0 <= len sol ->
  free_spline_call (free_spline s) = Fault /\
  gmatrix (free_spline s) cv = Fault /\
  coefficients (free_spline s) G = Ok (free_spline s) /\
  evaluate (free_spline s) sol = Fault.
Proof.
  intros Hsol. repeat split; try reflexivity.
  unfold evaluate. cbn [free_spline num_segs].
  destruct (Z.leb_spec 0 (len sol)); [reflexivity | lia].
Qed.

(** X5.  [gmatrix] writes every coefficient of a well-formed [G]: cell
    [k] of the block becomes sample [k / 5 + k mod 5] of the curve
    argument, whatever the block held before, the other fields are
    kept, and a second run changes nothing. *)
Theorem gmatrix_overwrites (G : spline_t F) (gc cv : curve_t F) :
  wf_spline G -> curve G = Some gc -> num_segs G = len gc - DEGREE ->
  len gc <= Z.of_nat (length (x cv)) ->
  exists G',
    gmatrix G cv = Ok G' /\
    wf_spline G' /\ curve G' = curve G /\ coeff G' = coeff G /\
    slen G' = slen G /\ num_segs G' = num_segs G /\
    (forall k, 0 <= k < (DEGREE + 1) * num_segs G ->
       cells G' !! Z.to_nat k = x cv !! Z.to_nat (k / 5 + k mod 5)) /\
    (forall c, length c = length (cells G) ->
       gmatrix (with_cells G c) cv = Ok G') /\
    gmatrix G' cv = Ok G'.
Proof.
  intros Hwf Hcurve Hsegs Hx.
  destruct (gmatrix_cells G gc cv Hwf Hcurve Hsegs Hx) as (c & Hrun & Hlen & Hc).
  assert (Hany : forall c0, length c0 = length (cells G) ->
                            gmatrix (with_cells G c0) cv = Ok (with_cells G c)).
  { intros c0 Hc0.
    destruct (gmatrix_cells (with_cells G c0) gc cv) as (c' & Hrun' & Hlen' & Hc');
      [now apply wf_with_cells | assumption | assumption | assumption |].
    rewrite Hrun'. f_equal. unfold with_cells. cbn [curve coeff slen num_segs cells].
    f_equal. cbn [with_cells cells num_segs] in Hlen', Hc'.
    destruct Hwf as (_ & _ & _ & _ & Hcells).
    apply (cells_determined c' c (num_segs G)); unfold DEGREE in *; try lia.
    intros i j Hi Hj. rewrite Hc', Hc by lia. reflexivity. }
  exists (with_cells G c). split; [exact Hrun |].
  split; [now apply wf_with_cells |].
  do 4 (split; [reflexivity |]). split; [exact Hc |]. split; [exact Hany |].
  now apply Hany.
Qed.

(** X6.  [gmatrix] takes its row count from the curve [G] refers back
    to and does not compare it with its curve argument: given an
    argument of fewer samples (and at least one row to fill), it reads
    past the argument's last sample. *)
Theorem gmatrix_short_argument (G : spline_t F) (gc cv : curve_t F) :
  wf_spline G -> curve G = Some gc -> num_segs G = len gc - DEGREE ->
  1 <= num_segs G -> Z.of_nat (length (x cv)) < len gc ->
  gmatrix G cv = Fault.
Proof. apply gmatrix_short. Qed.

(** X7.  [segment] through two pointers into longer arrays writes the
    first [DEGREE + 1] cells of [S] and keeps the cells after them, and
    reads the first [DEGREE + 1] cells of [G] only; what the written
    cells of [S] held before has no effect. *)
Theorem segment_frame (S G : list F) :
  (5 <= length S)%nat -> (5 <= length G)%nat ->
  segment S G = Ok (matvec Mcr (take 5 G) ++ drop 5 S).
Proof. apply segment_view. Qed.

(** X8.  [segment] on an output row or a geometry row of fewer than
    [DEGREE + 1] cells goes out of bounds. *)
Theorem segment_short_row (S G : list F) :
  (length S < 5)%nat \/ (length G < 5)%nat -> segment S G = Fault.
Proof.
  intros Hshort.
  destruct S as [| s0 [| s1 [| s2 [| s3 [| s4 S']]]]]; try reflexivity.
  destruct Hshort as [HS | HG]; [simpl in HS; lia |].
  destruct G as [| g0 [| g1 [| g2 [| g3 [| g4 G']]]]]; try reflexivity.
  simpl in HG. lia.
Qed.

(** X9.  [coefficients] makes [spline.num_segs] rounds without looking
    at [G.num_segs]: when [G] has fewer segments than [spline], it reads
    past the last row pointer of [G]. *)
Theorem coefficients_more_rows_than_G (sp G : spline_t F) :
  wf_spline sp -> wf_spline G -> num_segs G < num_segs sp ->
  coefficients sp G = Fault.
Proof. apply coefficients_short. Qed.

(** X10.  [coefficients] writes every coefficient of a well-formed
    [spline] from the first [spline.num_segs] rows of [G]: the result
    is well-formed, keeps the other fields, does not depend on what the
    block held before, and a second run changes nothing. *)
Theorem coefficients_overwrites (sp G : spline_t F) :
  wf_spline sp -> wf_spline G -> num_segs sp <= num_segs G ->
  exists sp',
    coefficients sp G = Ok sp' /\
    wf_spline sp' /\ curve sp' = curve sp /\ coeff sp' = coeff sp /\
    slen sp' = slen sp /\ num_segs sp' = num_segs sp /\
    (forall c, length c = length (cells sp) ->
       coefficients (with_cells sp c) G = Ok sp') /\
    coefficients sp' G = Ok sp'.
Proof.
  intros Hwf HwfG Hle.
  destruct (coefficients_spec sp G Hwf HwfG Hle) as (c & Hrun & Hlen & Hc).
  assert (Hany : forall c0, length c0 = length (cells sp) ->
                   coefficients (with_cells sp c0) G = Ok (with_cells sp c)).
  { intros c0 Hc0.
    destruct (coefficients_spec (with_cells sp c0) G) as (c' & Hrun' & Hlen' & Hc');
      [now apply wf_with_cells | assumption | assumption |].
    rewrite Hrun'. f_equal. unfold with_cells. cbn [curve coeff slen num_segs cells].
    f_equal. cbn [with_cells cells num_segs] in Hlen', Hc'.
    destruct Hwf as (_ & _ & _ & _ & Hcells).
    apply (rows_determined c' c (num_segs sp)); unfold DEGREE in *; try lia.
    intros i Hi. rewrite Hc', Hc by lia. reflexivity. }
  exists (with_cells sp c). split; [exact Hrun |].
  split; [now apply wf_with_cells |].
  do 4 (split; [reflexivity |]). split; [exact Hany |]. now apply Hany.
Qed.

(** X11.  [polynomial] checks [t] before it reads the row: when the
    check fails it aborts, whatever the row; when it passes and the row
    has fewer than 4 cells, it reads out of bounds. *)
Theorem polynomial_short_row (c : list F) (t : F) :
  (t_check t = false -> polynomial c t = Abort) /\
  (t_check t = true -> (length c < 4)%nat -> polynomial c t = Fault).
Proof.
  unfold polynomial. split.
  - intros ->. reflexivity.
  - intros -> Hc.
    destruct c as [| c0 [| c1 [| c2 [| c3 rest]]]]; try reflexivity.
    simpl in Hc. lia.
Qed.

(** X12.  [evaluate] writes nothing unless the solution length is a
    positive multiple of the segment count: for a spline of at least
    one segment it aborts when the solution is shorter than the segment
    count (an empty solution included) or its length leaves a
    remainder; for a spline of no segment it does not return. *)
Theorem evaluate_rejects (sp : spline_t F) (sol : curve_t F) :
  0 <= len sol ->
  (1 <= num_segs sp ->
   len sol < num_segs sp \/ len sol mod num_segs sp <> 0 ->
   evaluate sp sol = Abort) /\
  (num_segs sp = 0 -> evaluate sp sol = Fault).
Proof.
  intros Hsol. unfold evaluate. split.
  - intros Hn Hbad.
    destruct (Z.leb_spec (num_segs sp) (len sol)) as [Hle | Hlt]; [| reflexivity].
    cbn [assert bind].
    destruct (Z.eqb_spec (num_segs sp) 0) as [E | _]; [lia |]. cbn [bind].
    rewrite Z.rem_mod_nonneg by lia.
    destruct (Z.eqb_spec (len sol mod num_segs sp) 0) as [E | _]; [| reflexivity].
    destruct Hbad; lia.
  - intros ->. destruct (Z.leb_spec 0 (len sol)); [reflexivity | lia].
Qed.

(** X13.  [evaluate] never reads the fifth coefficient of a row: two
    well-formed splines of the same segment count whose rows agree on
    their first four coefficients give the same outcome on every
    solution curve. *)
Theorem evaluate_ignores_fifth (sp1 sp2 : spline_t F) (sol : curve_t F) :
  wf_spline sp1 -> wf_spline sp2 -> num_segs sp1 = num_segs sp2 ->
  (forall i, 0 <= i < num_segs sp1 -> take 4 (row sp1 i) = take 4 (row sp2 i)) ->
  evaluate sp1 sol = evaluate sp2 sol.
Proof.
  intros Hwf1 Hwf2 Hn Hrows. unfold evaluate. rewrite <- Hn.
  destruct (assert (num_segs sp1 <=? len sol)); try reflexivity. cbn [bind].
  destruct (num_segs sp1 =? 0); try reflexivity. cbn [bind].
  destruct (assert (Z.rem (len sol) (num_segs sp1) =? 0)); try reflexivity.
  cbn [bind]. f_equal. unfold for_uint. apply for_loop_ext.
  intros i [k xs] Hi.
  pose proof Hwf1 as (_ & Hmax & _).
  unfold DEGREE, INT_MAX in Hmax.
  rewrite (to_int_small i) by (unfold INT_MAX; lia).
  rewrite (evaluate_round_ext sp1 sp2) by first [assumption | lia | apply Hrows; lia].
  reflexivity.
Qed.

(** X14.  [spline (curve, spline)] on a curve of at least [DEGREE + 1]
    samples and a well-formed output spline of at most
    [curve.len - DEGREE] segments returns with row [i] set to the basis
    matrix applied to the samples [curve[i .. i + DEGREE]]; the result
    is well-formed, and its back-reference is the one the output spline
    had, not the curve. *)
Theorem spline_computes_rows (cv : curve_t F) (sp : spline_t F) :
  wf_curve cv -> DEGREE + 1 <= len cv ->
  (DEGREE + 1) * (len cv - DEGREE) <= INT_MAX ->
  wf_spline sp -> num_segs sp <= len cv - DEGREE ->
  exists sp',
    spline cv sp = Ok sp' /\
    wf_spline sp' /\ curve sp' = curve sp /\ num_segs sp' = num_segs sp /\
    (forall i, 0 <= i < num_segs sp ->
       row sp' i = matvec Mcr (take 5 (drop (Z.to_nat i) (x cv)))).
Proof.
  intros Hcv Hlo Hhi Hwf Hle.
  destruct (spline_spec cv sp Hcv) as (c & Hrun & Hlen & Hc);
    [unfold DEGREE in *; lia | assumption | assumption | assumption |].
  exists (with_cells sp c). split; [exact Hrun |].
  split; [now apply wf_with_cells |]. do 2 (split; [reflexivity |]).
  intros i Hi. rewrite <- Hc by exact Hi.
  unfold row, with_cells. cbn [coeff cells].
  now rewrite (wf_coeff_lookup sp i Hwf Hi).
Qed.

End MoreProperties.

(** ** Dumps *)

Lemma string_app_assoc (a b c : string) : (a +:+ b) +:+ c = a +:+ (b +:+ c).
Proof.
  induction a as [| ch a IH]; [reflexivity |].
  change (String ch ((a +:+ b) +:+ c) = String ch (a +:+ (b +:+ c))).
  now rewrite IH.
Qed.

Lemma lines_snoc (l : list string) (line : string) :
  lines (l ++ [line]) = lines l +:+ line +:+ newline.
Proof.
  induction l as [| a l IH].
  - change (line +:+ newline +:+ "" = "" +:+ line +:+ newline).
    change ("" +:+ line +:+ newline) with (line +:+ newline).
    rewrite <- string_app_assoc. generalize (line +:+ newline). intros u.
    induction u as [| ch u IHu]; [reflexivity |].
    change (String ch (u +:+ "") = String ch u). now rewrite IHu.
  - change (a +:+ newline +:+ lines (l ++ [line])
            = (a +:+ newline +:+ lines l) +:+ line +:+ newline).
    now rewrite IH, !string_app_assoc.
Qed.

Section DumpFacts.
Context {F : Type} `{Double F}.
Variable fmt_g : F -> string.

Lemma csv4_take (r : list F) : csv4 fmt_g (take 4 r) = csv4 fmt_g r.
Proof. now destruct r as [| c0 [| c1 [| c2 [| c3 r]]]]. Qed.

Lemma curve_to_file_text (cv : curve_t F) :
  0 <= len cv <= INT_MAX -> len cv <= Z.of_nat (length (x cv)) ->
  curve_to_file fmt_g true cv
  = Ok {| to_file := Some (lines (fmt_g <$> take (Z.to_nat (len cv)) (x cv)));
          to_stdout := "" |}.
Proof.
  intros Hlen Hx. unfold curve_to_file.
  destruct (for_uint_inv
    (fun i text => text = lines (fmt_g <$> take (Z.to_nat i) (x cv)))
    (fun i text => do v <- load (x cv) i; Ok (text +:+ fmt_g v +:+ newline))
    (len cv) "") as (text & -> & ->).
  - unfold INT_MAX in *. lia.
  - reflexivity.
  - intros i text Hi ->.
    destruct (lookup_lt_is_Some_2 (x cv) (Z.to_nat i)) as [v Hv]; [lia |].
    rewrite (load_Ok _ _ v) by (lia || assumption). cbn [bind].
    eexists. split; [reflexivity |].
    replace (Z.to_nat (i + 1)) with (S (Z.to_nat i)) by lia.
    rewrite (take_S_r _ _ v Hv), fmap_snoc. now rewrite lines_snoc.
  - reflexivity.
Qed.

Lemma spline_to_file_text (s : spline_t F) :
  wf_spline s ->
  spline_to_file fmt_g true s
  = Ok {| to_file :=
            Some (lines ((fun i => csv4 fmt_g (row s i)) <$> seqZ 0 (num_segs s)));
          to_stdout := "" |}.
Proof.
  intros Hwf. pose proof Hwf as (Hn0 & Hmax & _ & _ & Hcells).
  unfold DEGREE, INT_MAX in *. unfold spline_to_file.
  destruct (for_uint_inv
    (fun i text => text = lines ((fun i => csv4 fmt_g (row s i)) <$> seqZ 0 i))
    (fun i text =>
                    do p <- load (coeff s) i;
                    do c0 <- load (cells s) (p + 0);
                    do c1 <- load (cells s) (p + 1);
                    do c2 <- load (cells s) (p + 2);
                    do c3 <- load (cells s) (p + 3);
                    Ok (text +:+ fmt_g c0 +:+ "," +:+ fmt_g c1 +:+ ","
                             +:+ fmt_g c2 +:+ "," +:+ fmt_g c3 +:+ newline))
    (num_segs s) "") as (text & -> & ->).
  - unfold INT_MAX. lia.
  - reflexivity.
  - intros i text Hi ->.
    rewrite (load_Ok _ _ (5 * i)) by (lia || now apply wf_coeff_lookup).
    cbn [bind].
    pose proof (wf_row_length s i Hwf Hi) as Hrl.
    pose proof (wf_row s i Hwf Hi) as Hrow.
    destruct (row s i) as [| c0 [| c1 [| c2 [| c3 [| c4 [| ? ?]]]]]] eqn:Er;
      try discriminate.
    assert (Hcell : forall j, (j < 5)%nat ->
                      cells s !! Z.to_nat (5 * i + Z.of_nat j) = [c0; c1; c2; c3; c4] !! j).
    { intros j Hj. rewrite Hrow, lookup_take_lt, lookup_drop by lia.
      f_equal. lia. }
    rewrite (load_Ok _ _ c0) by (lia || apply (Hcell 0%nat); lia). cbn [bind].
    rewrite (load_Ok _ _ c1) by (lia || apply (Hcell 1%nat); lia). cbn [bind].
    rewrite (load_Ok _ _ c2) by (lia || apply (Hcell 2%nat); lia). cbn [bind].
    rewrite (load_Ok _ _ c3) by (lia || apply (Hcell 3%nat); lia). cbn [bind].
    eexists. split; [reflexivity |].
    rewrite (seqZ_app 0 i 1) by lia. rewrite fmap_app.
    change (seqZ (0 + i) 1) with [0 + i]. cbn [fmap list_fmap].
    rewrite lines_snoc, Z.add_0_l, Er. unfold csv4.
    now rewrite !string_app_assoc.
  - reflexivity.
Qed.

(** X15.  [curve_to_file] sends one line for each of the [len] samples,
    in index order, each the "%g" text of the sample; when the file
    cannot be opened it sends nothing, reads no sample, prints its
    message and returns. *)
Theorem curve_to_file_lines (cv : curve_t F) :
  0 <= len cv <= INT_MAX -> len cv <= Z.of_nat (length (x cv)) ->
  curve_to_file fmt_g true cv
  = Ok {| to_file := Some (lines (fmt_g <$> take (Z.to_nat (len cv)) (x cv)));
          to_stdout := "" |} /\
  curve_to_file fmt_g false cv
  = Ok {| to_file := None;
          to_stdout := "bezier: failed to write curve to file" +:+ newline |}.
Proof.
  intros Hlen Hx. split; [now apply curve_to_file_text | reflexivity].
Qed.

(** X16.  [spline_to_file] sends one line for each segment, in index
    order, holding the first four coefficients of the row separated by
    commas; the fifth coefficient is not written, so two well-formed
    splines whose rows agree on their first four coefficients are
    dumped alike. *)
Theorem spline_to_file_lines (opened : bool) (s s2 : spline_t F) :
  wf_spline s ->
  spline_to_file fmt_g true s
  = Ok {| to_file :=
            Some (lines ((fun i => csv4 fmt_g (row s i)) <$> seqZ 0 (num_segs s)));
          to_stdout := "" |} /\
  (wf_spline s2 -> num_segs s2 = num_segs s ->
   (forall i, 0 <= i < num_segs s -> take 4 (row s2 i) = take 4 (row s i)) ->
   spline_to_file fmt_g opened s2 = spline_to_file fmt_g opened s).
Proof.
  intros Hwf. split; [now apply spline_to_file_text |].
  intros Hwf2 Hn Hrows. destruct opened; [| reflexivity].
  rewrite !spline_to_file_text by assumption. rewrite Hn.
  do 4 f_equal. apply list_fmap_ext. intros k i Hk.
  apply lookup_seqZ in Hk.
  rewrite <- (csv4_take (row s2 i)), <- (csv4_take (row s i)).
  now rewrite Hrows by lia.
Qed.

End DumpFacts.

(** ** Freed curves *)

Section FreedCurve.
Context {F : Type} `{Double F}.

(** X17.  After [free_curve] a curve has no sample and length 0:
    [evaluate] into it aborts for every spline of at least one segment;
    [gmatrix] on a spline that refers back to it makes no round and
    returns the spline as it is; [gmatrix] with it as the curve
    argument of a well-formed spline of at least one row reads through
    NULL; [create_spline] on it returns the spline of [2^32 - DEGREE]
    claimed segments without a cell. *)
Theorem use_after_free_curve (cv sol cv' gc : curve_t F) (sp G G0 : spline_t F) :
  1 <= num_segs sp ->
  curve G0 = Some (free_curve cv) ->
  wf_spline G -> curve G = Some gc -> num_segs G = len gc - DEGREE ->
  1 <= num_segs G ->
  evaluate sp (free_curve sol) = Abort /\
  gmatrix G0 cv' = Ok G0 /\
  gmatrix G (free_curve cv) = Fault /\
  exists s, create_spline (free_curve cv) = Ok s /\
            num_segs s = 4294967296 - DEGREE /\ cells s = [].
Proof.
  intros Hsp HG0 Hwf Hcurve Hsegs Hrows. split; [| split; [| split]].
  - unfold evaluate. cbn [free_curve len].
    destruct (Z.leb_spec (num_segs sp) 0); [lia | reflexivity].
  - unfold gmatrix. rewrite HG0. cbn [bind free_curve len]. unfold for_int.
    change (Z.to_nat (to_int (to_uint (0 - DEGREE)))) with 0%nat.
    cbn [for_loop bind]. now rewrite with_cells_same.
  - apply (gmatrix_short G gc); try assumption.
    cbn [free_curve x length]. unfold DEGREE in *. lia.
  - rewrite create_spline_short by (cbn; unfold DEGREE; lia).
    eexists. split; [reflexivity |]. split; reflexivity.
Qed.

End FreedCurve.

(** ** Values in binary64 *)

(** 1.0 * x is x *)
Lemma one_mul (f : double) :
  valid f = true -> SFmul 53 1024 (b64_of_int 1) f = f.
Proof.
  unfold valid. rewrite b64_one.
  destruct f as [s | s | | s m e]; intros Hv; simpl in Hv; try reflexivity.
  pose proof Hv as Hb. unfold bounded, canonical_mantissa in Hb.
  apply andb_true_iff in Hb as [Hc He].
  apply Z.eqb_eq in Hc. apply Z.leb_le in He.
  unfold SFmul. cbn [xorb].
  change (4503599627370496 * m)%positive with (Pos.iter xO m 52).
  rewrite <- (round_bounded s m e Hv).
  unfold binary_round_aux.
  replace (-52 + e) with (e - Z.pos 52) by lia.
  rewrite shr_fexp_shift by exact Hc.
  now rewrite shr_fexp_canonical by exact Hc.
Qed.

Lemma zero_mul (f : double) :
  finite f = true -> is_zero (SFmul 53 1024 (b64_of_int 0) f) = true.
Proof. rewrite b64_zero. now destruct f. Qed.

(** Adding a zero to a finite value that compares equal to [g]. *)
Lemma add_zero_r (a z g : double) :
  finite a = true -> SFeqb a g = true -> is_zero z = true ->
  finite (SFadd 53 1024 a z) = true /\ SFeqb (SFadd 53 1024 a z) g = true.
Proof.
  intros Ha Hag Hz.
  destruct z as [sz | | |]; try discriminate.
  destruct a as [sa | | | sa m e]; try discriminate.
  - destruct g as [sg | [] | | [] mg eg]; try discriminate. now destruct sa, sz.
  - split; [reflexivity | exact Hag].
Qed.

Lemma zero_add (g : double) :
  finite g = true ->
  finite (SFadd 53 1024 (b64_of_int 0) g) = true /\
  SFeqb (SFadd 53 1024 (b64_of_int 0) g) g = true.
Proof.
  rewrite b64_zero. intros Hg. destruct g as [sg | | | sg m e]; try discriminate.
  - now destruct sg.
  - split; [reflexivity |]. now apply SFeqb_refl.
Qed.

(** [evaluate] on sizes that fit: the parameter [j / res] it passes to
    [polynomial] is never NaN. *)
Lemma evaluate_spec_binary64 (sp : spline_t double) (sol : curve_t double) (res : Z) :
  wf_spline sp -> 1 <= num_segs sp -> 1 <= res ->
  len sol = res * num_segs sp ->
  len sol <= INT_MAX -> len sol <= Z.of_nat (length (x sol)) ->
  exists xs,
    evaluate sp sol = Ok {| x := xs; len := len sol |} /\
    length xs = length (x sol) /\
    (forall k, 0 <= k < len sol ->
       exists v, sample sp res k = Ok v /\ xs !! Z.to_nat k = Some v) /\
    (forall n, (Z.to_nat (len sol) <= n)%nat -> xs !! n = x sol !! n).
Proof.
  intros Hwf Hsegs Hres Hlen Hmax Hbuf.
  apply evaluate_spec; try assumption.
  intros j Hj. apply nonneg_t_check, b64_div_nonneg; [lia |].
  unfold INT_MAX in *. nia.
Qed.

(** X18.  [evaluate] with as many samples as segments ([res = 1])
    evaluates each segment at [t = 0]: sample [i] compares equal to the
    fourth coefficient of row [i] when the first three coefficients of
    the row are finite and the fourth is not NaN. *)
Theorem evaluate_one_sample_each (sp : spline_t double) (sol : curve_t double) :
  wf_spline sp -> 1 <= num_segs sp ->
  len sol = num_segs sp -> len sol <= Z.of_nat (length (x sol)) ->
  exists sol',
    evaluate sp sol = Ok sol' /\
    (forall i c0 c1 c2 c3 c4, 0 <= i < num_segs sp ->
       row sp i = [c0; c1; c2; c3; c4] ->
       finite c0 = true -> finite c1 = true -> finite c2 = true ->
       c3 <> S754_nan ->
       exists v, x sol' !! Z.to_nat i = Some v /\ SFeqb v c3 = true).
Proof.
  intros Hwf Hsegs Hlen Hbuf.
  pose proof Hwf as (_ & Hmax & _). unfold DEGREE, INT_MAX in Hmax.
  destruct (evaluate_spec_binary64 sp sol 1) as (xs & Hrun & _ & Hdone & _);
    try assumption; try lia; [unfold INT_MAX; lia |].
  eexists. split; [exact Hrun |]. cbn [x].
  intros i c0 c1 c2 c3 c4 Hi Hrow F0 F1 F2 N3.
  destruct (Hdone i) as (v & Hv & Hk); [lia |].
  exists v. split; [exact Hk |].
  unfold sample in Hv. rewrite Z.div_1_r, Z.mod_1_r, Hrow in Hv.
  change (fdiv (of_int 0) (of_int 1)) with (b64_of_int 0) in Hv.
  rewrite polynomial_eq, (t_check_not_nan (b64_of_int 0)) in Hv by discriminate.
  injection Hv as <-. cbn [fadd fmul binary64].
  apply add_zero_l; [| exact N3].
  repeat first [ assumption | apply add_zeros | apply mul_zero
               | apply is_zero_finite ].
Qed.

(** X19.  [evaluate] on a solution curve of exactly [len] cells writes
    every cell: the result does not depend on what the solution held
    before, and a second run changes nothing. *)
Theorem evaluate_overwrites (sp : spline_t double) (sol : curve_t double) (res : Z) :
  wf_spline sp -> 1 <= num_segs sp -> 1 <= res ->
  len sol = res * num_segs sp ->
  len sol <= INT_MAX -> Z.of_nat (length (x sol)) = len sol ->
  exists sol',
    evaluate sp sol = Ok sol' /\
    (forall xs0, length xs0 = length (x sol) ->
       evaluate sp {| x := xs0; len := len sol |} = Ok sol') /\
    evaluate sp sol' = Ok sol'.
Proof.
  intros Hwf Hsegs Hres Hlen Hmax Hbuf.
  destruct (evaluate_spec_binary64 sp sol res) as (xs & Hrun & Hxs & Hdone & _);
    try assumption; try lia.
  assert (Hany : forall xs0, length xs0 = length (x sol) ->
            evaluate sp {| x := xs0; len := len sol |}
            = Ok {| x := xs; len := len sol |}).
  { intros xs0 H0.
    destruct (evaluate_spec_binary64 sp {| x := xs0; len := len sol |} res)
      as (xs' & Hrun' & Hxs' & Hdone' & _); cbn [x len]; try assumption; try lia.
    rewrite Hrun'. cbn [x len] in *. do 2 f_equal.
    apply list_eq. intros k.
    destruct (decide (k < length xs)%nat) as [Hk | Hk].
    - destruct (Hdone (Z.of_nat k)) as (v & Hv & Hkv); [lia |].
      destruct (Hdone' (Z.of_nat k)) as (v' & Hv' & Hkv'); [lia |].
      rewrite Nat2Z.id in Hkv, Hkv'. congruence.
    - rewrite !lookup_ge_None_2 by lia. reflexivity. }
  eexists. split; [exact Hrun |]. split; [exact Hany |].
  apply (Hany xs). exact Hxs.
Qed.

(** X20.  The whole computation returns on sizes that fit an [int]:
    for a well-formed curve of [L >= DEGREE + 1] samples whose
    coefficient count [(DEGREE + 1) * (L - DEGREE)] is at most
    [INT_MAX], and a solution of length
    [res * (L - DEGREE) <= INT_MAX] with [res >= 1] that has that many
    cells, [create_spline], [spline] and [evaluate] return in turn, no
    assert fails, and sample [i * res + j] of the solution is
    [polynomial] at [j / res] of the basis matrix applied to the
    samples [curve[i .. i + DEGREE]]. *)
Theorem pipeline_returns (cv sol : curve_t double) (res : Z) :
  wf_curve cv -> DEGREE + 1 <= len cv ->
  (DEGREE + 1) * (len cv - DEGREE) <= INT_MAX ->
  1 <= res -> len sol = res * (len cv - DEGREE) ->
  len sol <= INT_MAX -> len sol <= Z.of_nat (length (x sol)) ->
  exists sp0 sp sol',
    create_spline cv = Ok sp0 /\
    spline cv sp0 = Ok sp /\
    evaluate sp sol = Ok sol' /\
    (forall i j, 0 <= i < len cv - DEGREE -> 0 <= j < res ->
       exists v,
         polynomial (matvec Mcr (take 5 (drop (Z.to_nat i) (x cv))))
                    (fdiv (of_int j) (of_int res)) = Ok v /\
         x sol' !! Z.to_nat (i * res + j) = Some v).
Proof.
  intros Hcv Hlo Hhi Hres Hlen Hmax Hbuf.
  destruct (create_spline_wf cv) as (sp0 & Hsp0 & Hwf0 & _ & Hn0 & _);
    [unfold DEGREE in *; lia | assumption |].
  destruct (spline_spec cv sp0 Hcv) as (c & Hrun & Hc & Hrows);
    [unfold DEGREE in *; lia | assumption | assumption | lia |].
  assert (Hwf : wf_spline (with_cells sp0 c)) by now apply wf_with_cells.
  destruct (evaluate_spec_binary64 (with_cells sp0 c) sol res)
    as (xs & Hev & _ & Hdone & _); cbn [with_cells num_segs];
    try assumption; try lia.
  exists sp0, (with_cells sp0 c). eexists.
  split; [exact Hsp0 |]. split; [exact Hrun |]. split; [exact Hev |].
  cbn [x]. intros i j Hi Hj.
  destruct (Hdone (i * res + j)) as (v & Hv & Hk); [nia |].
  exists v. split; [| exact Hk].
  unfold sample in Hv.
  rewrite Z.div_add_l, Z.div_small, Z.add_0_r in Hv by lia.
  rewrite Z.add_comm, Z.mod_add, Z.mod_small in Hv by lia.
  rewrite wf_row in Hv by (cbn [with_cells num_segs]; assumption || lia).
  cbn [with_cells cells] in Hv. now rewrite Hrows in Hv by lia.
Qed.

(** X21.  The coefficient [evaluate] never reads is the first sample of
    the window: for a geometry row of finite values, [segment] leaves
    in [S[4]] a value that compares equal to [G[0]]. *)
Theorem fifth_coefficient_is_first_sample (S : list double) (g0 g1 g2 g3 g4 : double) :
  length S = 5%nat ->
  valid g0 = true -> finite g0 = true -> finite g1 = true ->
  finite g2 = true -> finite g3 = true -> finite g4 = true ->
  exists r v,
    segment S [g0; g1; g2; g3; g4] = Ok r /\
    r !! 4%nat = Some v /\ SFeqb v g0 = true.
Proof.
  intros HS V0 F0 F1 F2 F3 F4.
  rewrite segment_five by (assumption || reflexivity).
  exists (matvec Mcr [g0; g1; g2; g3; g4]),
         (dot [of_int 1; of_int 0; of_int 0; of_int 0; of_int 0]
              [g0; g1; g2; g3; g4]).
  split; [reflexivity |]. split; [reflexivity |].
  unfold dot. cbn [zip_with fold_left].
  cbn [fadd fmul of_int binary64]. rewrite (one_mul g0 V0).
  destruct (zero_add g0 F0) as [Fa Ea].
  destruct (add_zero_r _ _ g0 Fa Ea (zero_mul g1 F1)) as [Fb Eb].
  destruct (add_zero_r _ _ g0 Fb Eb (zero_mul g2 F2)) as [Fc Ec].
  destruct (add_zero_r _ _ g0 Fc Ec (zero_mul g3 F3)) as [Fd Ed].
  destruct (add_zero_r _ _ g0 Fd Ed (zero_mul g4 F4)) as [_ Ee].
  exact Ee.
Qed.

(** ** A straight line *)

Lemma linear_ramp_window (a d n i : Z) :
  0 <= i -> i + 5 <= n ->
  take 5 (drop (Z.to_nat i) (x (linear_ramp a d n)))
  = b64_of_int <$> [a + d * i; a + d * (i + 1); a + d * (i + 2);
                    a + d * (i + 3); a + d * (i + 4)].
Proof.
  intros Hi Hn. apply list_eq. intros k. unfold linear_ramp. cbn [x].
  destruct (decide (k < 5)%nat) as [Hk | Hk].
  - rewrite lookup_take_lt, lookup_drop, list_lookup_fmap by lia.
    rewrite lookup_seqZ_lt by lia. cbn [fmap option_fmap option_map list_fmap].
    do 5 (destruct k as [| k]; [cbn [lookup list_lookup]; do 4 f_equal; lia |]). lia.
  - rewrite lookup_take_ge by lia. symmetry. apply lookup_ge_None_2. simpl. lia.
Qed.

(** X22.  In binary64, for the straight line
    [a, a + d, ..., a + (n - 1) d] of integers with
    [|a| + |d| n < 2^48] (no operation rounds), [n >= DEGREE + 1]
    samples, a coefficient count within [int] and a well-formed output
    spline of at most [n - DEGREE] segments: [spline] returns, row [i]
    of the output compares equal to
    [8 (a + d i) + 24 d, 0, 0, 4 d, a + d i], and [polynomial] on it at
    [t = 0] compares equal to [4 d], not to the sample [a + d i]. *)
Theorem spline_linear_ramp (a d n : Z) (sp : spline_t double) :
  DEGREE + 1 <= n -> (DEGREE + 1) * (n - DEGREE) <= INT_MAX ->
  Z.abs a + Z.abs d * n < 2 ^ 48 ->
  wf_spline sp -> num_segs sp <= n - DEGREE ->
  exists sp',
    spline (linear_ramp a d n) sp = Ok sp' /\
    (forall i, 0 <= i < num_segs sp ->
       exists c0 c1 c2 c3 c4 v,
         row sp' i = [c0; c1; c2; c3; c4] /\
         SFeqb c0 (b64_of_int (8 * (a + d * i) + 24 * d)) = true /\
         is_zero c1 = true /\ is_zero c2 = true /\
         SFeqb c3 (b64_of_int (4 * d)) = true /\
         SFeqb c4 (b64_of_int (a + d * i)) = true /\
         polynomial (row sp' i) (of_int 0) = Ok v /\
         SFeqb v (b64_of_int (4 * d)) = true).
Proof.
  intros Hlo Hhi Hfit Hwf Hle. unfold DEGREE, INT_MAX in *.
  assert (Hcv : wf_curve (linear_ramp a d n)).
  { unfold wf_curve, linear_ramp, UINT_MAX. cbn [x len].
    rewrite length_fmap, length_seqZ. lia. }
  destruct (spline_spec (linear_ramp a d n) sp) as (c & Hrun & Hlen & Hc);
    unfold DEGREE, INT_MAX, linear_ramp; cbn [len]; try assumption; try lia.
  exists (with_cells sp c). split; [exact Hrun |]. intros i Hi.
  set (B := Z.abs a + Z.abs d * n) in *.
  assert (Hg : forall j, 0 <= j < n -> Z.abs (a + d * j) <= B).
  { intros j Hj. etransitivity; [apply Z.abs_triangle |].
    rewrite Z.abs_mul, (Z.abs_eq j) by lia. subst B.
    pose proof (Z.abs_nonneg d). nia. }
  destruct (matvec_ints B (a + d * i) (a + d * (i + 1)) (a + d * (i + 2))
              (a + d * (i + 3)) (a + d * (i + 4)))
    as (c0 & c1 & c2 & c3 & c4 & Hrow & H0 & H1 & H2 & H3 & H4);
    try (apply Hg; lia); [lia |].
  assert (Hri : row (with_cells sp c) i = [c0; c1; c2; c3; c4]).
  { unfold row, with_cells. cbn [coeff cells].
    rewrite (wf_coeff_lookup sp i Hwf Hi). change (Z.to_nat (DEGREE + 1)) with 5%nat.
    change ((DEGREE + 1) * i) with (5 * i).
    rewrite Hc, linear_ramp_window by lia. exact Hrow. }
  exists c0, c1, c2, c3, c4. eexists.
  split; [exact Hri |].
  split; [apply (int_below_eqb_of_int _ _ _ _ H0); ring |].
  split; [apply (int_below_zero (32 * B)), (int_below_weaken _ _ _ _ _ H1); [ring | lia | lia] |].
  split; [apply (int_below_zero (24 * B)), (int_below_weaken _ _ _ _ _ H2); [ring | lia | lia] |].
  split; [apply (int_below_eqb_of_int _ _ _ _ H3); ring |].
  split; [apply (int_below_eqb_of_int _ _ _ _ H4); ring |].
  rewrite Hri, polynomial_eq, (t_check_not_nan (of_int 0)) by discriminate.
  split; [reflexivity |].
  cbn [of_int fadd fmul binary64].
  assert (HB0 : 0 <= B) by (destruct H4; lia).
  eapply int_below_eqb_of_int; [int_value lia | ring].
Qed.

(** ** spline on a curve without a segment *)

Section ShortCurve.
Context {F : Type} `{Double F}.

(** X23.  [spline] does not return on a curve of at most [DEGREE]
    samples, whatever the output spline: the temporary [G] has no row,
    so either [coefficients] reads [G.coeff[0]] (when the output spline
    has a segment) or [free_spline (G)] does, outside the row-pointer
    array. *)
Theorem spline_short_curve (cv : curve_t F) (sp : spline_t F) :
  0 <= len cv <= DEGREE -> spline cv sp = Fault.
Proof.
  intros Hlen. unfold spline. rewrite create_spline_eq. cbn [bind].
  assert (Hn : to_int (to_uint (len cv - DEGREE)) = len cv - DEGREE).
  { rewrite to_int_to_uint. unfold DEGREE in *.
    apply to_int_small. unfold INT_MAX. lia. }
  rewrite !Hn, seqZ_nil by lia. cbn [fmap list_fmap].
  unfold gmatrix. cbn [curve bind]. rewrite Hn.
  unfold for_int at 1. replace (Z.to_nat (len cv - DEGREE)) with 0%nat by lia.
  cbn [for_loop bind]. unfold coefficients, with_cells. cbn [coeff cells num_segs].
  unfold for_uint. destruct (Z.to_nat (num_segs sp)) as [| n].
  - cbn [for_loop bind]. reflexivity.
  - cbn [for_loop].
    destruct (load_cases (coeff sp) (to_int 0)) as [[p ->] | ->]; reflexivity.
Qed.

End ShortCurve.

(** ** Concrete runs of the further properties *)

Lemma create_spline_short_curve_witness :
  let sol := create_curve (F := double) 10 in
  exists s, create_spline (ramp 2) = Ok s /\
    num_segs s = 4294967296 + len (ramp 2) - DEGREE /\
    coeff s = [] /\ cells s = [] /\
    gmatrix s (ramp 9) = Ok s /\
    coefficients s (fresh_spline (ramp 9)) = Fault /\
    (len sol < num_segs s -> evaluate s sol = Abort).
Proof.
  apply (create_spline_short_curve (ramp 2) (ramp 9) (create_curve 10)
           (fresh_spline (ramp 9))).
  by_evaluation.
Defined.

Lemma create_spline_initial_witness :
  exists s, create_spline (ramp 9) = Ok s /\
    wf_spline s /\ curve s = Some (ramp 9) /\
    (forall k, (k < length (cells s))%nat -> cells s !! k = Some (of_int 0)) /\
    (len (ramp 9) = DEGREE -> num_segs s = 0 /\ cells s = []).
Proof.
  apply (create_spline_initial (ramp 9)); by_evaluation.
Defined.

(** A curve of 9 samples gives 5 rows; a curve of 4 samples gives none. *)
Lemma free_spline_call_rows_witness :
  free_spline_call (fresh_spline (ramp 9)) = Ok (free_spline (fresh_spline (ramp 9))) /\
  free_spline_call (fresh_spline (ramp 4)) = Fault.
Proof.
  split.
  - apply (free_spline_call_rows (fresh_spline (ramp 9))); [solve_wf_spline | by_evaluation].
  - apply (free_spline_call_rows (fresh_spline (ramp 4))); [solve_wf_spline | by_evaluation].
Defined.

Lemma use_after_free_spline_witness :
  let s := free_spline (ramp_spline 9) in
  free_spline_call s = Fault /\
  gmatrix s (ramp 9) = Fault /\
  coefficients s (geometry (ramp 9)) = Ok s /\
  evaluate s (create_curve 10) = Fault.
Proof.
  apply (use_after_free_spline (ramp_spline 9) (geometry (ramp 9)) (ramp 9)
           (create_curve 10)).
  by_evaluation.
Defined.

Lemma gmatrix_overwrites_witness :
  let G := fresh_spline (ramp 9) in
  let cv := ramp 9 in
  exists G',
    gmatrix G cv = Ok G' /\
    wf_spline G' /\ curve G' = curve G /\ coeff G' = coeff G /\
    slen G' = slen G /\ num_segs G' = num_segs G /\
    (forall k, 0 <= k < (DEGREE + 1) * num_segs G ->
       cells G' !! Z.to_nat k = x cv !! Z.to_nat (k / 5 + k mod 5)) /\
    (forall c, length c = length (cells G) ->
       gmatrix (with_cells G c) cv = Ok G') /\
    gmatrix G' cv = Ok G'.
Proof.
  apply (gmatrix_overwrites (fresh_spline (ramp 9)) (ramp 9) (ramp 9));
    [solve_wf_spline | by_evaluation ..].
Defined.

(** A spline allocated for 9 samples, filled from a curve of 6. *)
Lemma gmatrix_short_argument_witness :
  gmatrix (fresh_spline (ramp 9)) (ramp 6) = Fault.
Proof.
  apply (gmatrix_short_argument (fresh_spline (ramp 9)) (ramp 9) (ramp 6));
    [solve_wf_spline | by_evaluation ..].
Defined.

Lemma segment_frame_witness :
  let S : list double := of_int <$> [7; 7; 7; 7; 7; 7; 7] in
  segment S (x (ramp 9)) = Ok (matvec Mcr (take 5 (x (ramp 9))) ++ drop 5 S).
Proof.
  apply (segment_frame (of_int <$> [7; 7; 7; 7; 7; 7; 7]) (x (ramp 9)));
    vm_compute; lia.
Defined.

Lemma segment_short_row_witness :
  segment (x (ramp 9)) (x (ramp 4)) = Fault.
Proof.
  apply (segment_short_row (x (ramp 9)) (x (ramp 4))).
  right. vm_compute. lia.
Defined.

Lemma coefficients_more_rows_than_G_witness :
  coefficients (fresh_spline (ramp 9)) (fresh_spline (ramp 6)) = Fault.
Proof.
  apply (coefficients_more_rows_than_G (fresh_spline (ramp 9)) (fresh_spline (ramp 6)));
    [solve_wf_spline | solve_wf_spline | by_evaluation].
Defined.

Lemma coefficients_overwrites_witness :
  let sp := fresh_spline (ramp 9) in
  let G := geometry (ramp 9) in
  exists sp',
    coefficients sp G = Ok sp' /\
    wf_spline sp' /\ curve sp' = curve sp /\ coeff sp' = coeff sp /\
    slen sp' = slen sp /\ num_segs sp' = num_segs sp /\
    (forall c, length c = length (cells sp) ->
       coefficients (with_cells sp c) G = Ok sp') /\
    coefficients sp' G = Ok sp'.
Proof.
  apply (coefficients_overwrites (fresh_spline (ramp 9)) (geometry (ramp 9)));
    [solve_wf_spline | solve_wf_spline | by_evaluation].
Defined.

(** A NaN parameter on any row; parameter 0 on a row of three cells. *)
Lemma polynomial_short_row_witness :
  polynomial (x (ramp 3)) S754_nan = Abort /\
  polynomial (x (ramp 3)) (of_int 0) = Fault.
Proof.
  split.
  - apply (polynomial_short_row (x (ramp 3)) S754_nan). reflexivity.
  - apply (polynomial_short_row (x (ramp 3)) (of_int 0)); [reflexivity |].
    vm_compute. lia.
Defined.

(** 5 segments: 3 cells are too few, 7 leave a remainder. *)
Lemma evaluate_rejects_witness :
  evaluate (ramp_spline 9) (create_curve 3) = Abort /\
  evaluate (ramp_spline 9) (create_curve 7) = Abort /\
  evaluate (fresh_spline (ramp 4)) (create_curve 7) = Fault.
Proof.
  split; [| split].
  - apply (evaluate_rejects (ramp_spline 9) (create_curve 3));
      [by_evaluation | by_evaluation |].
    left. by_evaluation.
  - apply (evaluate_rejects (ramp_spline 9) (create_curve 7));
      [by_evaluation | by_evaluation |].
    right. by_evaluation.
  - apply (evaluate_rejects (fresh_spline (ramp 4)) (create_curve 7)); by_evaluation.
Defined.

Lemma with_fifth_agrees (i : Z) :
  0 <= i < num_segs (ramp_spline 9) ->
  take 4 (row (ramp_spline 9) i)
  = take 4 (row (with_fifth (ramp_spline 9) (of_int 99)) i).
Proof.
  intros Hi.
  assert (E : num_segs (ramp_spline 9) = 5) by (vm_compute; reflexivity).
  rewrite E in Hi.
  assert (Hc : i = 0 \/ i = 1 \/ i = 2 \/ i = 3 \/ i = 4) by lia.
  destruct Hc as [-> | [-> | [-> | [-> | ->]]]]; vm_compute; reflexivity.
Qed.

Lemma evaluate_ignores_fifth_witness :
  evaluate (ramp_spline 9) (create_curve 10)
  = evaluate (with_fifth (ramp_spline 9) (of_int 99)) (create_curve 10).
Proof.
  apply (evaluate_ignores_fifth (ramp_spline 9)
           (with_fifth (ramp_spline 9) (of_int 99)) (create_curve 10));
    [solve_wf_spline | solve_wf_spline | by_evaluation | apply with_fifth_agrees].
Defined.

Lemma spline_computes_rows_witness :
  let cv := ramp 9 in
  let sp := fresh_spline (ramp 9) in
  exists sp',
    spline cv sp = Ok sp' /\
    wf_spline sp' /\ curve sp' = curve sp /\ num_segs sp' = num_segs sp /\
    (forall i, 0 <= i < num_segs sp ->
       row sp' i = matvec Mcr (take 5 (drop (Z.to_nat i) (x cv)))).
Proof.
  apply (spline_computes_rows (ramp 9) (fresh_spline (ramp 9)));
    [by_evaluation | by_evaluation | by_evaluation | solve_wf_spline | by_evaluation].
Defined.

Lemma curve_to_file_lines_witness :
  curve_to_file fmt_sample true (ramp 3)
  = Ok {| to_file := Some (lines (fmt_sample <$> take (Z.to_nat (len (ramp 3))) (x (ramp 3))));
          to_stdout := "" |} /\
  curve_to_file fmt_sample false (ramp 3)
  = Ok {| to_file := None;
          to_stdout := "bezier: failed to write curve to file" +:+ newline |}.
Proof.
  apply (curve_to_file_lines fmt_sample (ramp 3)); by_evaluation.
Defined.

Lemma spline_to_file_lines_witness :
  let s := ramp_spline 9 in
  let s2 := with_fifth (ramp_spline 9) (of_int 99) in
  spline_to_file fmt_sample true s
  = Ok {| to_file :=
            Some (lines ((fun i => csv4 fmt_sample (row s i)) <$> seqZ 0 (num_segs s)));
          to_stdout := "" |} /\
  spline_to_file fmt_sample true s2 = spline_to_file fmt_sample true s.
Proof.
  intros s s2.
  destruct (spline_to_file_lines fmt_sample true s s2) as [H1 H2];
    [solve_wf_spline |].
  split; [exact H1 |].
  apply H2; [solve_wf_spline | by_evaluation |].
  intros i Hi. symmetry. now apply with_fifth_agrees.
Defined.

Lemma use_after_free_curve_witness :
  let G0 := fresh_spline (free_curve (ramp 9)) in
  evaluate (ramp_spline 9) (free_curve (create_curve 10)) = Abort /\
  gmatrix G0 (ramp 9) = Ok G0 /\
  gmatrix (fresh_spline (ramp 9)) (free_curve (ramp 9)) = Fault /\
  exists s, create_spline (free_curve (ramp 9)) = Ok s /\
            num_segs s = 4294967296 - DEGREE /\ cells s = [].
Proof.
  apply (use_after_free_curve (ramp 9) (create_curve 10) (ramp 9) (ramp 9)
           (ramp_spline 9) (fresh_spline (ramp 9))
           (fresh_spline (free_curve (ramp 9))));
    [by_evaluation | by_evaluation | solve_wf_spline | by_evaluation ..].
Defined.

Lemma evaluate_one_sample_each_witness :
  let sp := ramp_spline 9 in
  exists sol',
    evaluate sp (create_curve 5) = Ok sol' /\
    (forall i c0 c1 c2 c3 c4, 0 <= i < num_segs sp ->
       row sp i = [c0; c1; c2; c3; c4] ->
       finite c0 = true -> finite c1 = true -> finite c2 = true ->
       c3 <> S754_nan ->
       exists v, x sol' !! Z.to_nat i = Some v /\ SFeqb v c3 = true).
Proof.
  apply (evaluate_one_sample_each (ramp_spline 9) (create_curve 5));
    [solve_wf_spline | by_evaluation ..].
Defined.

Lemma evaluate_overwrites_witness :
  let sp := ramp_spline 9 in
  let sol := create_curve (F := double) 10 in
  exists sol',
    evaluate sp sol = Ok sol' /\
    (forall xs0, length xs0 = length (x sol) ->
       evaluate sp {| x := xs0; len := len sol |} = Ok sol') /\
    evaluate sp sol' = Ok sol'.
Proof.
  apply (evaluate_overwrites (ramp_spline 9) (create_curve 10) 2);
    [solve_wf_spline | by_evaluation ..].
Defined.

Lemma pipeline_returns_witness :
  let cv := ramp 9 in
  let sol := create_curve (F := double) 10 in
  exists sp0 sp sol',
    create_spline cv = Ok sp0 /\
    spline cv sp0 = Ok sp /\
    evaluate sp sol = Ok sol' /\
    (forall i j, 0 <= i < len cv - DEGREE -> 0 <= j < 2 ->
       exists v,
         polynomial (matvec Mcr (take 5 (drop (Z.to_nat i) (x cv))))
                    (fdiv (of_int j) (of_int 2)) = Ok v /\
         x sol' !! Z.to_nat (i * 2 + j) = Some v).
Proof.
  apply (pipeline_returns (ramp 9) (create_curve 10) 2); by_evaluation.
Defined.

Lemma fifth_coefficient_is_first_sample_witness :
  exists r v,
    segment (of_int <$> [7; 7; 7; 7; 7])
            [b64_of_int 3; b64_of_int 5; b64_of_int 8; b64_of_int 13; b64_of_int 21]
    = Ok r /\
    r !! 4%nat = Some v /\ SFeqb v (b64_of_int 3) = true.
Proof.
  apply (fifth_coefficient_is_first_sample (of_int <$> [7; 7; 7; 7; 7])
           (b64_of_int 3) (b64_of_int 5) (b64_of_int 8) (b64_of_int 13)
           (b64_of_int 21)); reflexivity.
Defined.

(** The line 3, 5, ..., 19. *)
Lemma spline_linear_ramp_witness :
  let sp := fresh_spline (linear_ramp 3 2 9) in
  exists sp',
    spline (linear_ramp 3 2 9) sp = Ok sp' /\
    (forall i, 0 <= i < num_segs sp ->
       exists c0 c1 c2 c3 c4 v,
         row sp' i = [c0; c1; c2; c3; c4] /\
         SFeqb c0 (b64_of_int (8 * (3 + 2 * i) + 24 * 2)) = true /\
         is_zero c1 = true /\ is_zero c2 = true /\
         SFeqb c3 (b64_of_int (4 * 2)) = true /\
         SFeqb c4 (b64_of_int (3 + 2 * i)) = true /\
         polynomial (row sp' i) (of_int 0) = Ok v /\
         SFeqb v (b64_of_int (4 * 2)) = true).
Proof.
  apply (spline_linear_ramp 3 2 9 (fresh_spline (linear_ramp 3 2 9)));
    [by_evaluation | by_evaluation | by_evaluation | solve_wf_spline | by_evaluation].
Defined.

Lemma spline_short_curve_witness :
  spline (ramp 4) (fresh_spline (ramp 4)) = Fault /\
  spline (ramp 2) (fresh_spline (ramp 9)) = Fault.
Proof.
  split.
  - apply (spline_short_curve (ramp 4) (fresh_spline (ramp 4))). by_evaluation.
  - apply (spline_short_curve (ramp 2) (fresh_spline (ramp 9))). by_evaluation.
Defined.
